(** * CareerMate (streamlit_app.py): a shallow embedding and its properties

    The program is one Streamlit script.  Every interaction re-runs the
    script from its first line: it reads the sidebar settings, checks the
    model credential, creates the transcript on the first run, replays
    the visible turns, and, when the chat box delivered a text, handles
    that text.  The embedding follows that shape:

    - Python values that come out of [res.json()] are a small inductive
      type; the dictionary operations the script uses ([d[k]],
      [d.get(k, default)], iteration, slicing) are written out with the
      exception each one raises;
    - effects are a state-and-exception monad that also records what the
      run did to the outside (HTTP requests, warnings, chat bubbles, the
      model request and the streamed fragments);
    - [st.cache_data] is a finite map from the argument pair to the
      stored result.

    Static page decoration (title, captions, spinners) is left out. *)

From Stdlib Require Import ZArith NArith List Ascii String Bool Lia.
From stdpp Require Import base option list gmap.
Import ListNotations.

Set Warnings "-register-all".
Local Open Scope N_scope.

(** ** Text *)

(** A Python [str] is a sequence of Unicode code points. *)
Abbreviation pystr := (list N).

(** Literals are written as Rocq strings (UTF-8 bytes) and decoded. *)
Fixpoint utf8_decode_from (need : nat) (acc : N) (bs : list N) : pystr :=
  match bs with
  | [] => []
  | b :: rest =>
      match need with
      | O =>
          if b <? 128 then b :: utf8_decode_from 0 0 rest
          else if b <? 224 then utf8_decode_from 1 (b mod 32) rest
          else if b <? 240 then utf8_decode_from 2 (b mod 16) rest
          else utf8_decode_from 3 (b mod 8) rest
      | S O => (acc * 64 + b mod 64) :: utf8_decode_from 0 0 rest
      | S n => utf8_decode_from n (acc * 64 + b mod 64) rest
      end
  end.

Definition text (s : string) : pystr :=
  utf8_decode_from 0 0 (map N_of_ascii (list_ascii_of_string s)).
Arguments text s%_string.

(** The newline character, written [\n] in the source. *)
Definition nl : pystr := [10].

(** [str.isspace] for one code point: the characters [str.strip()] removes. *)
Definition isspace (c : N) : bool :=
  ((9 <=? c) && (c <=? 13)) || ((28 <=? c) && (c <=? 32))
  || (c =? 133) || (c =? 160) || (c =? 5760)
  || ((8192 <=? c) && (c <=? 8202))
  || (c =? 8232) || (c =? 8233) || (c =? 8239) || (c =? 8287) || (c =? 12288).

Fixpoint lstrip (s : pystr) : pystr :=
  match s with
  | [] => []
  | c :: rest => if isspace c then lstrip rest else s
  end.

Definition rstrip (s : pystr) : pystr := rev (lstrip (rev s)).

(** [s.strip()] *)
Definition strip (s : pystr) : pystr := rstrip (lstrip s).

(** [s.startswith(p)] *)
Fixpoint startswith (s p : pystr) {struct p} : bool :=
  match p, s with
  | [], _ => true
  | _ :: _, [] => false
  | a :: p', b :: s' => (a =? b) && startswith s' p'
  end.

(** [sep.join(parts)] *)
Fixpoint join (sep : pystr) (parts : list pystr) : pystr :=
  match parts with
  | [] => []
  | [p] => p
  | p :: rest => p ++ sep ++ join sep rest
  end.

(** Truth value of a [str] or a list: non-empty. *)
Definition truthy {A} (l : list A) : bool :=
  match l with [] => false | _ :: _ => true end.

(** [a or b] on strings. *)
Definition or_else (a b : pystr) : pystr := if truthy a then a else b.

(** [sub in s], as a relation and as a test. *)
Definition contains (s sub : pystr) : Prop := ∃ a b, s = a ++ sub ++ b.

Fixpoint containsb (s sub : pystr) : bool :=
  startswith s sub ||
  match s with
  | [] => false
  | _ :: rest => containsb rest sub
  end.

(** ** Python values *)

Inductive pyval :=
| PyNone
| PyBool (b : bool)
| PyInt (z : Z)
| PyFloat (bits : N)
| PyStr (s : pystr)
| PyList (items : list pyval)
| PyDict (entries : list (pystr * pyval)).

(** What the interpreter supplies and the script does not define: the
    Unicode lower-case table outside ASCII, and the text of [str(v)] for a
    value that is not a [str]. *)
Record py_runtime := {
  to_lower_full : N → pystr;
  final_sigma : pystr → pystr → bool;
  str_of_other : pyval → pystr
}.

Definition ascii_lower (c : N) : N :=
  if (65 <=? c) && (c <=? 90) then c + 32 else c.

(** The exceptions the modelled operations raise.  [StopException] is the
    one [st.stop()] raises; it does not derive from [Exception]. *)
Inductive exn :=
| RequestException (detail : pystr)
| HTTPError (status : Z)
| JSONDecodeError
| KeyError (key : pystr)
| TypeError
| AttributeError
| APIError (detail : pystr)
| StopException.

Definition is_Exception (e : exn) : bool :=
  match e with StopException => false | _ => true end.

Inductive result (A : Type) :=
| Ok (a : A)
| Raise (e : exn).
Arguments Ok {A} a.
Arguments Raise {A} e.

Definition rbind {A B} (r : result A) (k : A → result B) : result B :=
  match r with
  | Ok a => k a
  | Raise e => Raise e
  end.

Fixpoint map_result {A B} (f : A → result B) (l : list A) : result (list B) :=
  match l with
  | [] => Ok []
  | a :: rest =>
      rbind (f a) (λ b, rbind (map_result f rest) (λ bs, Ok (b :: bs)))
  end.

Fixpoint assoc (k : pystr) (d : list (pystr * pyval)) : option pyval :=
  match d with
  | [] => None
  | (k', v) :: rest => if decide (k = k') then Some v else assoc k rest
  end.

(** [v[key]] for a [str] key. *)
Definition subscript (v : pyval) (key : pystr) : result pyval :=
  match v with
  | PyDict d =>
      match assoc key d with
      | Some x => Ok x
      | None => Raise (KeyError key)
      end
  | _ => Raise TypeError
  end.

(** [v.get(key, default)] *)
Definition dict_get (v : pyval) (key : pystr) (default : pyval) : result pyval :=
  match v with
  | PyDict d =>
      match assoc key d with
      | Some x => Ok x
      | None => Ok default
      end
  | _ => Raise AttributeError
  end.

(** [for x in v]: the elements of a list, the keys of a dict, the
    characters of a string. *)
Definition iterate (v : pyval) : result (list pyval) :=
  match v with
  | PyList l => Ok l
  | PyDict d => Ok (map (λ kv, PyStr (fst kv)) d)
  | PyStr s => Ok (map (λ c, PyStr [c]) s)
  | _ => Raise TypeError
  end.

(** [v[:n]].  On a dict the slice is used as a key: [TypeError] up to
    Python 3.11, [KeyError] from 3.12, an [Exception] in both. *)
Definition slice_to (n : nat) (v : pyval) : result pyval :=
  match v with
  | PyList l => Ok (PyList (take n l))
  | PyStr s => Ok (PyStr (take n s))
  | _ => Raise TypeError
  end.

(** ** Transcript, settings and the outside world *)

Inductive chat_role := system | user | assistant.

Definition chat_role_eqb (a b : chat_role) : bool :=
  match a, b with
  | system, system | user, user | assistant, assistant => true
  | _, _ => false
  end.

(** One entry of [st.session_state.messages]: a dict with the two keys
    [role] and [content]. *)
Record turn := { role : chat_role; content : pystr }.

(** The sidebar inputs, read again on every run of the script. *)
Record settings := {
  openai_api_key : pystr;
  news_api_key : pystr;
  event_api_key : pystr;
  profession : pystr;
  location : pystr
}.

Module News.
(** The dict [_query_news] builds for one article. *)
Record item := { title : pyval; url : pyval; source : pyval }.
End News.

Module Event.
(** The dict [_query_events] builds for one event. *)
Record item := { name : pyval; url : pyval; start : pyval; venue : pyval }.
End Event.

Record http_request := {
  req_url : pystr;
  req_params : list (pystr * pystr);
  req_timeout : Z
}.

(** The [Response] object of [requests]: its status and, when the body is
    JSON, the decoded value. *)
Record response := { status_code : Z; decoded : option pyval }.

Inductive http_outcome :=
| Unreachable (detail : pystr)
| Answered (res : response).

(** The model's answer to one request: the fragments it streams and, when
    the call or the stream breaks, the exception after those fragments. *)
Record llm_reply := { chunks : list pystr; failure : option exn }.

(** Everything a run of the script asks of its environment. *)
Record world := {
  http : http_request → http_outcome;
  llm : pystr → list turn → llm_reply;
  today : pystr;
  utcnow_iso : pystr;
  utcnow_plus_30_days_iso : pystr
}.

(** What a run does that can be seen from outside. *)
Inductive event :=
| HttpGet (req : http_request)
| Warning (message : pystr) (cause : exn)
| ErrorBox (message : pystr)
| ChatMessage (r : chat_role) (body : pystr)
| LlmRequest (model : pystr) (payload : list turn)
| StreamChunk (fragment : pystr).


(** The warnings of a trace, as [st.cache_data] records them. *)
Fixpoint shown_warnings (t : list event) : list (pystr * exn) :=
  match t with
  | [] => []
  | Warning m e :: rest => (m, e) :: shown_warnings rest
  | _ :: rest => shown_warnings rest
  end.

Definition replay (shown : list (pystr * exn)) : list event :=
  map (λ me, Warning (fst me) (snd me)) shown.

(** The fragments streamed to the page, in order. *)
Fixpoint streamed (t : list event) : list pystr :=
  match t with
  | [] => []
  | StreamChunk f :: rest => f :: streamed rest
  | _ :: rest => streamed rest
  end.

(** The events a fetcher can emit. *)
Definition is_fetch_event (ev : event) : bool :=
  match ev with HttpGet _ | Warning _ _ => true | _ => false end.

Definition is_network (ev : event) : bool :=
  match ev with HttpGet _ | LlmRequest _ _ => true | _ => false end.

Abbreviation fetched := (list News.item * list Event.item)%type.

(** [st.session_state.messages] (absent before the first run) and the
    store behind [st.cache_data]: per argument pair, the returned tuple and
    the warnings the function showed, which a hit shows again. *)
Record app_state := {
  messages : option (list turn);
  cache : gmap (pystr * pystr) (fetched * list (pystr * exn))
}.

(** ** The effect monad: state, trace, exceptions *)

Definition M (A : Type) : Type := app_state → app_state * list event * result A.

Definition ret {A} (a : A) : M A := λ s, (s, [], Ok a).

Definition bind {A B} (m : M A) (k : A → M B) : M B :=
  λ s, match m s with
       | (s1, t1, Ok a) => let '(s2, t2, r) := k a s1 in (s2, t1 ++ t2, r)
       | (s1, t1, Raise e) => (s1, t1, Raise e)
       end.

Declare Scope M_scope.
Delimit Scope M_scope with M.
Notation "x <- m ;; k" := (bind m (λ x, k))
  (at level 100, m at next level, right associativity) : M_scope.
Notation "m ;; k" := (bind m (λ _, k))
  (at level 100, right associativity) : M_scope.
Local Open Scope M_scope.

Definition emit (ev : event) : M unit := λ s, (s, [ev], Ok ()).
Definition raise {A} (e : exn) : M A := λ s, (s, [], Raise e).
Definition lift {A} (r : result A) : M A := λ s, (s, [], r).

(** [try: body  except Exception as e: handler e] *)
Definition try_except {A} (body : M A) (handler : exn → M A) : M A :=
  λ s, match body s with
       | (s1, t1, Raise e) =>
           if is_Exception e
           then let '(s2, t2, r) := handler e s1 in (s2, t1 ++ t2, r)
           else (s1, t1, Raise e)
       | done => done
       end.

(** [st.session_state.messages.append({"role": r, "content": c})] *)
Definition append_message (r : chat_role) (c : pystr) : M unit :=
  λ s, match messages s with
       | Some ms =>
           ({| messages := Some (ms ++ [{| role := r; content := c |}]);
               cache := cache s |}, [], Ok ())
       | None => (s, [], Raise AttributeError)
       end.

(** ** The script *)

Section Script.

Context (R : py_runtime).

(** [s.lower()]: ASCII letters by arithmetic, capital sigma by its
    context, everything else by the interpreter's table. *)
Definition lower_ucs4 (before : pystr) (c : N) (after : pystr) : pystr :=
  if c =? 931 then [if final_sigma R before after then 962 else 963]
  else if c <? 128 then [ascii_lower c]
  else to_lower_full R c.

Fixpoint lower_from (before s : pystr) : pystr :=
  match s with
  | [] => []
  | c :: rest => lower_ucs4 before c rest ++ lower_from (before ++ [c]) rest
  end.

Definition lower (s : pystr) : pystr := lower_from [] s.

(** A value inside an f-string: [format(v, "")]. *)
Definition format (v : pyval) : pystr :=
  match v with
  | PyStr s => s
  | _ => str_of_other R v
  end.

Section Run.

Context (cfg : settings) (w : world).

(** *** ExternalDataFetcher *)

Definition requests_get (u : pystr) (ps : list (pystr * pystr)) (t : Z) : M response :=
  let req := {| req_url := u; req_params := ps; req_timeout := t |} in
  emit (HttpGet req) ;;
  match http w req with
  | Unreachable d => raise (RequestException d)
  | Answered res => ret res
  end.

(** [res.raise_for_status()]: [requests] raises for 4xx and 5xx. *)
Definition raise_for_status (res : response) : result unit :=
  if ((400 <=? status_code res) && (status_code res <? 600))%Z
  then Raise (HTTPError (status_code res))
  else Ok ().

(** [res.json()] *)
Definition json (res : response) : result pyval :=
  match decoded res with
  | Some v => Ok v
  | None => Raise JSONDecodeError
  end.

Definition news_item_of (art : pyval) : result News.item :=
  rbind (subscript art (text "title")) (λ t,
  rbind (subscript art (text "url")) (λ u,
  rbind (subscript art (text "source")) (λ src,
  rbind (subscript src (text "name")) (λ n,
  Ok {| News.title := t; News.url := u; News.source := n |})))).

Definition news_items_of (data : pyval) : result (list News.item) :=
  rbind (dict_get data (text "articles") (PyList [])) (λ arts,
  rbind (iterate arts) (map_result news_item_of)).

Definition news_warning : pystr :=
  Eval vm_compute in text "뉴스를 불러오는 데 실패했습니다: ".

Definition news_url : pystr :=
  Eval vm_compute in text "https://newsapi.org/v2/everything".

Definition news_params (profession : pystr) : list (pystr * pystr) :=
  [ (text "q", or_else profession (text "career"));
    (text "language", text "ko,en");
    (text "sortBy", text "publishedAt");
    (text "pageSize", text "3");
    (text "apiKey", news_api_key cfg) ].

Definition _query_news (profession : pystr) : M (list News.item) :=
  if negb (truthy (news_api_key cfg)) then ret []
  else
    try_except
      (res <- requests_get news_url (news_params profession) 10 ;;
       lift (raise_for_status res) ;;
       data <- lift (json res) ;;
       lift (news_items_of data))
      (λ e, emit (Warning news_warning e) ;; ret []).

Definition event_item_of (ev : pyval) : result Event.item :=
  rbind (subscript ev (text "name")) (λ nm,
  rbind (subscript nm (text "text")) (λ n,
  rbind (subscript ev (text "url")) (λ u,
  rbind (subscript ev (text "start")) (λ st,
  rbind (subscript st (text "local")) (λ loc,
  rbind (slice_to 10 loc) (λ d,
  rbind (dict_get ev (text "venue") (PyDict [])) (λ ven,
  rbind (dict_get ven (text "name") (PyStr [])) (λ v,
  Ok {| Event.name := n; Event.url := u; Event.start := d; Event.venue := v |})))))))).

Definition event_items_of (data : pyval) : result (list Event.item) :=
  rbind (dict_get data (text "events") (PyList [])) (λ evs,
  rbind (slice_to 3 evs) (λ first3,
  rbind (iterate first3) (map_result event_item_of))).

Definition events_warning : pystr :=
  Eval vm_compute in text "이벤트를 불러오는 데 실패했습니다: ".

Definition events_url : pystr :=
  Eval vm_compute in text "https://www.eventbriteapi.com/v3/events/search/".

Definition events_params (location profession : pystr) : list (pystr * pystr) :=
  [ (text "q", or_else profession (text "networking"));
    (text "location.address", location);
    (text "start_date.range_start", utcnow_iso w ++ text "Z");
    (text "start_date.range_end", utcnow_plus_30_days_iso w ++ text "Z");
    (text "token", event_api_key cfg);
    (text "expand", text "venue") ].

Definition _query_events (location profession : pystr) : M (list Event.item) :=
  if negb (truthy (event_api_key cfg)) || negb (truthy location) then ret []
  else
    try_except
      (res <- requests_get events_url (events_params location profession) 10 ;;
       lift (raise_for_status res) ;;
       data <- lift (json res) ;;
       lift (event_items_of data))
      (λ e, emit (Warning events_warning e) ;; ret []).

(** *** DataAggregator *)

(** The decorated function's body. *)
Definition fetch_uncached (profession location : pystr) : M fetched :=
  news <- _query_news profession ;;
  events <- _query_events location profession ;;
  ret (news, events).

(** [@st.cache_data]: a stored result is returned without running the
    body, and the elements the body showed are shown again; otherwise the
    body runs and, when it returns, its result is stored. *)
Definition fetch_news_and_events (profession location : pystr) : M fetched :=
  λ s, match cache s !! (profession, location) with
       | Some (v, shown) => (s, replay shown, Ok v)
       | None =>
           match fetch_uncached profession location s with
           | (s1, t1, Ok v) =>
               ({| messages := messages s1;
                   cache := <[(profession, location) := (v, shown_warnings t1)]> (cache s1) |},
                t1, Ok v)
           | failed => failed
           end
       end.

(** *** PromptComposer *)

Definition build_system_prompt : pystr :=
  let date_str := today w in
  let base :=
    text "You are CareerMate, a multilingual professional assistant. "
    ++ text "Today's date is " ++ date_str ++ text "." in
  let base :=
    if truthy (profession cfg)
    then base ++ text " The user's profession is '" ++ profession cfg ++ text "'."
    else base in
  let base :=
    if truthy (location cfg)
    then base ++ text " The user is located in " ++ location cfg ++ text "."
    else base in
  base
  ++ text " Curate relevant news and events, and provide clear, concise, and actionable feedback. "
  ++ text "When asked for a daily briefing, provide a bullet summary in Korean, then offer deeper dives.".

Definition news_line (n : News.item) : pystr :=
  text "- " ++ format (News.title n) ++ text " (" ++ format (News.source n) ++ text ")".

Definition event_line (e : Event.item) : pystr :=
  text "- " ++ format (Event.start e) ++ text " " ++ format (Event.name e)
  ++ text " @ " ++ format (Event.venue e).

Definition briefing_intro : pystr :=
  Eval vm_compute in (text "You gathered the following data:" ++ nl ++ nl).
Definition news_header : pystr :=
  Eval vm_compute in (text "Recent news headlines:" ++ nl).
Definition events_header : pystr :=
  Eval vm_compute in (text "Upcoming events:" ++ nl).
Definition no_data_marker : pystr :=
  Eval vm_compute in (text "(No external data available)" ++ nl ++ nl).
Definition briefing_instruction : pystr :=
  Eval vm_compute in
  text "Please craft a Korean daily briefing in bullet points (max 120 words), then suggest next actions.".

(** The text built in the [/brief] branch, one [+=] after the other. *)
Definition briefing_context (news : list News.item) (events : list Event.item) : pystr :=
  let ctx := briefing_intro in
  let ctx :=
    if truthy news
    then ctx ++ (news_header ++ join nl (map news_line news) ++ nl ++ nl)
    else ctx in
  let ctx :=
    if truthy events
    then ctx ++ (events_header ++ join nl (map event_line events) ++ nl ++ nl)
    else ctx in
  let ctx :=
    if negb (truthy news) && negb (truthy events)
    then ctx ++ no_data_marker
    else ctx in
  ctx ++ briefing_instruction.

(** *** ConversationStore *)

(** The first lines of the main part: create the transcript once. *)
Definition init_session : M unit :=
  λ s, match messages s with
       | None =>
           ({| messages := Some ([] ++ [{| role := system; content := build_system_prompt |}]);
               cache := cache s |}, [], Ok ())
       | Some _ => (s, [], Ok ())
       end.

(** The loop that replays the transcript, skipping system turns. *)
Fixpoint display (ms : list turn) : list event :=
  match ms with
  | [] => []
  | m :: rest =>
      if chat_role_eqb (role m) system then display rest
      else ChatMessage (role m) (content m) :: display rest
  end.

Definition display_messages : M unit :=
  λ s, match messages s with
       | Some ms => (s, display ms, Ok ())
       | None => (s, [], Raise AttributeError)
       end.

(** The list comprehension passed as [messages=] to the model. *)
Definition payload_of (ms : list turn) : list turn :=
  map (λ m, {| role := role m; content := content m |}) ms.

(** *** CommandRouter *)

Inductive route_kind := Brief | PlainChat.

(** The condition of the [/brief] branch, and the two ways it sends a
    text. *)
Definition is_brief (user_input : pystr) : bool :=
  startswith (lower (strip user_input)) (text "/brief").

Definition route (user_input : pystr) : route_kind :=
  if is_brief user_input then Brief else PlainChat.

(** *** ChatOrchestrator *)

Definition model_id : pystr :=
  Eval vm_compute in text "gpt-4o-mini-turbo".

(** [client.chat.completions.create(..., stream=True)] followed by
    [st.write_stream]: the fragments go to the page in order, and the
    whole text comes back unless the call or the stream raised. *)
Definition chat_completion : M pystr :=
  λ s, match messages s with
       | Some ms =>
           let reply := llm w model_id (payload_of ms) in
           (s,
            LlmRequest model_id (payload_of ms) :: map StreamChunk (chunks reply),
            match failure reply with
            | Some e => Raise e
            | None => Ok (concat (chunks reply))
            end)
       | None => (s, [], Raise AttributeError)
       end.

(** The body under [if user_input:]. *)
Definition handle_input (user_input : pystr) : M unit :=
  append_message user user_input ;;
  emit (ChatMessage user user_input) ;;
  (if is_brief user_input
   then
     fetched <- fetch_news_and_events (profession cfg) (location cfg) ;;
     append_message system (briefing_context (fst fetched) (snd fetched))
   else ret ()) ;;
  response_text <- chat_completion ;;
  append_message assistant response_text.

(** [user_input] is what [st.chat_input] returned: [None] or a text. *)
Definition handler (user_input : option pystr) : M unit :=
  match user_input with
  | Some t => if truthy t then handle_input t else ret ()
  | None => ret ()
  end.

Definition missing_key_error : pystr :=
  Eval vm_compute in text "❗ OpenAI API Key가 필요합니다.".

(** One run of the whole script. *)
Definition script (user_input : option pystr) : M unit :=
  (if negb (truthy (openai_api_key cfg))
   then emit (ErrorBox missing_key_error) ;; raise StopException
   else ret ()) ;;
  init_session ;;
  display_messages ;;
  handler user_input.

End Run.

(** A session: the script run once per interaction, each time with the
    settings, the environment and the chat-box value of that moment. *)
Record interaction := {
  at_settings : settings;
  at_world : world;
  submitted : option pystr
}.

Fixpoint session (runs : list interaction) (s : app_state) : app_state * list event :=
  match runs with
  | [] => (s, [])
  | r :: rest =>
      let '(s1, t1, _) := script (at_settings r) (at_world r) (submitted r) s in
      let '(s2, t2) := session rest s1 in
      (s2, t1 ++ t2)
  end.

End Script.

(** The payloads of the model requests in a trace, in order. *)
Fixpoint llm_payloads (t : list event) : list (list turn) :=
  match t with
  | [] => []
  | LlmRequest _ p :: rest => p :: llm_payloads rest
  | _ :: rest => llm_payloads rest
  end.

(** The state of a process that has served no session yet. *)
Definition fresh : app_state := {| messages := None; cache := ∅ |}.

(** ** Sample data *)

(** A runtime whose table leaves non-ASCII code points as they are. *)
Definition sample_runtime : py_runtime :=
  {| to_lower_full := λ c, [c];
     final_sigma := λ _ _, false;
     str_of_other := λ _, text "None" |}.

Definition sample_settings : settings :=
  {| openai_api_key := text "sk-test";
     news_api_key := text "news-key";
     event_api_key := text "event-key";
     profession := text "UI/UX Designer";
     location := text "Seoul" |}.

Definition sample_article : pyval :=
  PyDict [ (text "title", PyStr (text "A"));
           (text "url", PyStr (text "https://example.org/a"));
           (text "source", PyDict [ (text "name", PyStr (text "S")) ]) ].

Definition sample_news_body : pyval :=
  PyDict [ (text "status", PyStr (text "ok"));
           (text "articles", PyList [ sample_article ]) ].

Definition sample_events_body : pyval := PyDict [ (text "events", PyList []) ].

Definition is_news_request (req : http_request) : bool :=
  bool_decide (req_url req = text "https://newsapi.org/v2/everything").

(** One article, no event, and a model that streams two fragments. *)
Definition sample_world : world :=
  {| http := λ req,
       if is_news_request req
       then Answered {| status_code := 200; decoded := Some sample_news_body |}
       else Answered {| status_code := 200; decoded := Some sample_events_body |};
     llm := λ _ _, {| chunks := [ text "Hel"; text "lo" ]; failure := None |};
     today := text "2025-06-01";
     utcnow_iso := text "2025-06-01T03:00:00";
     utcnow_plus_30_days_iso := text "2025-07-01T03:00:00" |}.

(** Every provider is down and the model call fails. *)
Definition broken_world : world :=
  {| http := λ _, Unreachable (text "connection refused");
     llm := λ _ _, {| chunks := []; failure := Some (APIError (text "503")) |};
     today := text "2025-06-02";
     utcnow_iso := text "2025-06-02T03:00:00";
     utcnow_plus_30_days_iso := text "2025-07-02T03:00:00" |}.

(** A provider that answers every request with the same status and body. *)
Definition world_serving (status : Z) (body : option pyval) : world :=
  {| http := λ _, Answered {| status_code := status; decoded := body |};
     llm := λ _ _, {| chunks := [ text "Hel"; text "lo" ]; failure := None |};
     today := text "2025-06-01";
     utcnow_iso := text "2025-06-01T03:00:00";
     utcnow_plus_30_days_iso := text "2025-07-01T03:00:00" |}.

Definition sample_base : turn :=
  {| role := system; content := build_system_prompt sample_settings sample_world |}.



Definition untitled_article : pyval :=
  PyDict [ (text "url", PyStr (text "https://example.org/b"));
           (text "source", PyDict [ (text "name", PyStr (text "S")) ]) ].

Definition body_with_untitled_article : pyval :=
  PyDict [ (text "articles", PyList [ sample_article; untitled_article ]) ].

Definition sample_event : pyval :=
  PyDict [ (text "name", PyDict [ (text "text", PyStr (text "Design meetup")) ]);
           (text "url", PyStr (text "https://example.org/e"));
           (text "start", PyDict [ (text "local", PyStr (text "2025-06-10T19:00:00")) ]) ].

(** A session right after its first page load. *)
Definition sample_session : app_state :=
  {| messages := Some [ sample_base ]; cache := ∅ |}.

(** What may follow: a plain question while everything is down, then a
    second command. *)
Definition sample_followups : list interaction :=
  [ {| at_settings := sample_settings; at_world := broken_world;
       submitted := Some (text "hello") |};
    {| at_settings := sample_settings; at_world := sample_world;
       submitted := Some (text "/brief again") |} ].

(** A page load followed by the command, as the end-to-end scenario has it. *)
Definition load_then_brief (cfg : settings) (w0 w : world) : list interaction :=
  [ {| at_settings := cfg; at_world := w0; submitted := None |};
    {| at_settings := cfg; at_world := w; submitted := Some (text "/brief") |} ].

(** The item [_query_news] makes of [sample_article]. *)
Definition sample_news_item : News.item :=
  {| News.title := PyStr (text "A");
     News.url := PyStr (text "https://example.org/a");
     News.source := PyStr (text "S") |}.

(** ** Vocabulary of the properties *)

Definition news_request (cfg : settings) (profession : pystr) : http_request :=
  {| req_url := news_url; req_params := news_params cfg profession; req_timeout := 10 |}.

Definition events_request (cfg : settings) (w : world) (location profession : pystr) : http_request :=
  {| req_url := events_url;
     req_params := events_params cfg w location profession;
     req_timeout := 10 |}.

(** The ways a provider call ends in an exception: the request itself
    fails, the status is one [raise_for_status] rejects, the body is not
    JSON, or extraction from the decoded body raises. *)
Inductive provider_failed {A} (extract : pyval → result (list A)) : http_outcome → exn → Prop :=
| network_error d :
    provider_failed extract (Unreachable d) (RequestException d)
| error_status res :
    (400 ≤ status_code res < 600)%Z →
    provider_failed extract (Answered res) (HTTPError (status_code res))
| undecodable_body res :
    ¬ (400 ≤ status_code res < 600)%Z →
    decoded res = None →
    provider_failed extract (Answered res) JSONDecodeError
| unusable_payload res v e :
    ¬ (400 ≤ status_code res < 600)%Z →
    decoded res = Some v →
    extract v = Raise e →
    provider_failed extract (Answered res) e.

(** What the [try] block of a fetcher ends with, given the provider's
    answer. *)
Definition attempt {A} (extract : pyval → result (list A)) (o : http_outcome) : result (list A) :=
  match o with
  | Unreachable d => Raise (RequestException d)
  | Answered res => rbind (raise_for_status res) (λ _, rbind (json res) extract)
  end.

(** A result that is a value or an exception [except Exception] catches. *)
Definition ordinary {A} (r : result A) : Prop :=
  match r with
  | Ok _ => True
  | Raise e => is_Exception e = true
  end.

Definition network_calls (t : list event) : list event := List.filter is_network t.

(** The text a field has inside a line of the briefing: a string stands
    for itself, any other value for what [str] makes of it. *)
Definition field_text (R : py_runtime) (v : pyval) : pystr :=
  match v with
  | PyStr s => s
  | _ => str_of_other R v
  end.

(** The sections of the briefing text, following the template's
    description: a section is present exactly when its list is not empty,
    under its header, one line per item. *)
Definition news_section (R : py_runtime) (news : list News.item) : pystr :=
  match news with
  | [] => []
  | _ :: _ =>
      (text "Recent news headlines:" ++ nl)
      ++ join nl (map (λ n, text "- " ++ field_text R (News.title n) ++ text " ("
                            ++ field_text R (News.source n) ++ text ")") news)
      ++ nl ++ nl
  end.

Definition events_section (R : py_runtime) (events : list Event.item) : pystr :=
  match events with
  | [] => []
  | _ :: _ =>
      (text "Upcoming events:" ++ nl)
      ++ join nl (map (λ e, text "- " ++ field_text R (Event.start e) ++ text " "
                            ++ field_text R (Event.name e) ++ text " @ "
                            ++ field_text R (Event.venue e)) events)
      ++ nl ++ nl
  end.

Definition marker_section (news : list News.item) (events : list Event.item) : pystr :=
  match news, events with
  | [], [] => text "(No external data available)" ++ nl ++ nl
  | _, _ => []
  end.

(** [s'] keeps everything [s] holds: each cached entry, and the
    transcript as a prefix of the new one. *)
Definition extends (s s' : app_state) : Prop :=
  (∀ k e, cache s !! k = Some e → cache s' !! k = Some e)
  ∧ (∀ ms, messages s = Some ms → ∃ more, messages s' = Some (ms ++ more)).

(** A computation that only ever adds to the state, and whose model
    requests all carry the transcript it started from. *)
Definition grows {A} (m : M A) : Prop :=
  ∀ s, extends s (m s).1.1
       ∧ ∀ ms, messages s = Some ms → ∀ p, p ∈ llm_payloads (m s).1.2 → ms `prefix_of` p.

(** The turn the first run puts at the head of the transcript. *)
Definition base_turn (cfg : settings) (w : world) : turn :=
  {| role := system; content := build_system_prompt cfg w |}.

(** The provider requests of a trace, in order. *)
Fixpoint http_requests (t : list event) : list http_request :=
  match t with
  | [] => []
  | HttpGet req :: rest => req :: http_requests rest
  | _ :: rest => http_requests rest
  end.

(** The value a request carries for a parameter. *)
Fixpoint param (k : pystr) (ps : list (pystr * pystr)) : option pystr :=
  match ps with
  | [] => None
  | (k', v) :: rest => if decide (k = k') then Some v else param k rest
  end.

(** Settings with the model credential left empty. *)
Definition keyless_settings : settings :=
  {| openai_api_key := [];
     news_api_key := text "news-key";
     event_api_key := text "event-key";
     profession := text "designer";
     location := text "Seoul" |}.

(** A model whose stream breaks after one fragment. *)
Definition interrupted_world : world :=
  {| http := http sample_world;
     llm := λ _ _, {| chunks := [ text "Hel" ]; failure := Some (APIError (text "reset")) |};
     today := text "2025-06-03";
     utcnow_iso := text "2025-06-03T03:00:00";
     utcnow_plus_30_days_iso := text "2025-07-03T03:00:00" |}.

(** Five well-formed events and four well-formed articles. *)
Definition five_events_body : pyval :=
  PyDict [ (text "events",
            PyList [ sample_event; sample_event; sample_event; PyNone; sample_event ]) ].

Definition four_articles_body : pyval :=
  PyDict [ (text "articles",
            PyList [ sample_article; sample_article; sample_article; sample_article ]) ].

(** The transcript of the end-to-end scenario. *)
Definition sample_transcript : list turn :=
  [ sample_base;
    {| role := user; content := text "/brief" |};
    {| role := system;
       content := briefing_context sample_runtime [ sample_news_item ] [] |};
    {| role := assistant; content := text "Hello" |} ].

(** What one handled text leaves in the transcript: the user turn, at most
    one system turn, and the assistant turn unless the model call raised. *)
Definition exchange (block : list turn) : Prop :=
  ∃ t extra answer,
    block = {| role := user; content := t |} :: extra ++ answer
    ∧ Forall (λ m, role m = system) extra
    ∧ (length extra ≤ 1)%nat
    ∧ (answer = [] ∨ ∃ a, answer = [{| role := assistant; content := a |}]).

(** A transcript made of a system turn followed by exchanges. *)
Definition well_formed (ms : list turn) : Prop :=
  ∃ base blocks,
    ms = base :: concat blocks ∧ role base = system ∧ Forall exchange blocks.

(** No assistant turn of [l] directly follows an assistant turn, [prev]
    being the role before the first turn of [l]. *)
Fixpoint no_assistant_after (prev : chat_role) (l : list turn) : Prop :=
  match l with
  | [] => True
  | m :: rest =>
      (role m = assistant → prev ≠ assistant) ∧ no_assistant_after (role m) rest
  end.

(** What a handled text puts between the user turn and the model call:
    for a command, the augmentation built from what the fetch returned;
    for anything else, nothing. *)
Definition augmentation_turns (R : py_runtime) (cfg : settings) (w : world)
    (t : pystr) (s : app_state) (ms : list turn) : list turn :=
  if is_brief R t
  then
    match (fetch_news_and_events cfg w (profession cfg) (location cfg)
             {| messages := Some (ms ++ [{| role := user; content := t |}]);
                cache := cache s |}).2 with
    | Ok v => [{| role := system; content := briefing_context R v.1 v.2 |}]
    | Raise _ => []
    end
  else [].

(** The transcript at the moment of the model call, which is the payload. *)
Definition sent_payload (R : py_runtime) (cfg : settings) (w : world)
    (t : pystr) (s : app_state) (ms : list turn) : list turn :=
  ms ++ {| role := user; content := t |} :: augmentation_turns R cfg w t s ms.

(** A model that fails on the payload of a command and on nothing else. *)
Definition picky_world : world :=
  {| http := http sample_world;
     llm := λ _ p,
       if bool_decide (length p = 3%nat)
       then {| chunks := [ text "Hel" ]; failure := Some (APIError (text "reset")) |}
       else {| chunks := [ text "Hel"; text "lo" ]; failure := None |};
     today := text "2025-06-04";
     utcnow_iso := text "2025-06-04T03:00:00";
     utcnow_plus_30_days_iso := text "2025-07-04T03:00:00" |}.

(** * Properties *)

(** ** Text *)

Lemma startswith_prefix s p : startswith s p = true ↔ p `prefix_of` s.
Proof.
  revert s; induction p as [|a p IH]; intros s; simpl.
  - split; [intros _; by exists s | done].
  - destruct s as [|b s]; simpl.
    + split; [done | intros [k Hk]; discriminate].
    + rewrite andb_true_iff, IH, N.eqb_eq. split.
      * intros [-> [k ->]]. by exists k.
      * intros [k Hk]. injection Hk as -> ->. split; [done | by exists k].
Qed.

Lemma containsb_contains s sub : containsb s sub = true ↔ contains s sub.
Proof.
  induction s as [|c s IH]; simpl.
  - rewrite orb_false_r, startswith_prefix. split.
    + intros [k Hk]. exists [], k. done.
    + intros (a & b & H). destruct a; simpl in H.
      * by exists b.
      * discriminate.
  - rewrite orb_true_iff, startswith_prefix, IH. split.
    + intros [[k Hk] | (a & b & ->)].
      * exists [], k. done.
      * exists (c :: a), b. done.
    + intros (a & b & H). destruct a as [|c' a]; simpl in H.
      * left. by exists b.
      * injection H as -> ->. right. by exists a, b.
Qed.

Lemma not_contains s sub : containsb s sub = false → ¬ contains s sub.
Proof. intros H C. apply containsb_contains in C. congruence. Qed.

Lemma contains_app_r a s sub : contains s sub → contains (a ++ s) sub.
Proof. intros (x & y & ->). exists (a ++ x), y. by rewrite <- app_assoc. Qed.

Lemma contains_app_l s b sub : contains s sub → contains (s ++ b) sub.
Proof. intros (x & y & ->). exists x, (y ++ b). by rewrite <- !app_assoc. Qed.

Lemma contains_refl s : contains s s.
Proof. exists [], []. by rewrite app_nil_r. Qed.

Lemma contains_join sep parts p : p ∈ parts → contains (join sep parts) p.
Proof.
  induction parts as [|q parts IH]; [by intros ?%elem_of_nil |].
  intros [-> | Hin]%elem_of_cons; simpl.
  - destruct parts; [apply contains_refl | apply contains_app_l, contains_refl].
  - destruct parts as [|q' parts]; [by apply elem_of_nil in Hin |].
    apply contains_app_r, contains_app_r, IH, Hin.
Qed.

Lemma lstrip_all_space s : forallb isspace s = true → lstrip s = [].
Proof.
  induction s as [|c s IH]; simpl; [done |].
  intros [Hc Hs]%andb_true_iff. rewrite Hc. auto.
Qed.

Lemma lstrip_keeps l m :
  match m with [] => True | c :: _ => isspace c = false end →
  ∃ x, lstrip (l ++ m) = x ++ m.
Proof.
  intros Hm. induction l as [|c l IH]; simpl.
  - exists []. destruct m as [|c m]; simpl; [done | by rewrite Hm].
  - destruct (isspace c); [apply IH | by exists (c :: l)].
Qed.

Lemma lstrip_space_prefix l m : forallb isspace l = true → lstrip (l ++ m) = lstrip m.
Proof.
  induction l as [|c l IH]; simpl; [done |].
  intros [Hc Hl]%andb_true_iff. rewrite Hc. auto.
Qed.

(** [strip] removes leading whitespace and leaves a following token that
    ends in a visible character where it is. *)
Lemma strip_keeps_token lead token last rest :
  forallb isspace lead = true →
  match token ++ [last] with [] => True | c :: _ => isspace c = false end →
  isspace last = false →
  ∃ rest', strip (lead ++ (token ++ [last]) ++ rest) = (token ++ [last]) ++ rest'.
Proof.
  intros Hlead Hfirst Hlast. unfold strip, rstrip.
  rewrite lstrip_space_prefix by done.
  assert (lstrip ((token ++ [last]) ++ rest) = (token ++ [last]) ++ rest) as ->.
  { destruct (token ++ [last]) as [|c tl] eqn:E; [by destruct token |].
    simpl. by rewrite Hfirst. }
  rewrite rev_app_distr.
  destruct (lstrip_keeps (rev rest) (rev (token ++ [last]))) as [x Hx].
  { rewrite rev_app_distr. simpl. done. }
  rewrite Hx, rev_app_distr, rev_involutive. by exists (rev x).
Qed.

Ltac not_space :=
  unfold isspace;
  repeat (apply orb_false_iff; split);
  first [ apply N.eqb_neq; lia
        | apply andb_false_iff; left; apply N.leb_gt; lia
        | apply andb_false_iff; right; apply N.leb_gt; lia ].

Lemma ascii_lower_visible c :
  ascii_lower c < 128 → isspace (ascii_lower c) = false →
  c < 128 ∧ isspace c = false.
Proof.
  unfold ascii_lower.
  destruct (N.leb_spec 65 c), (N.leb_spec c 90); simpl; try (intros; split; done).
  intros _ _. split; [lia | not_space].
Qed.

Lemma lower_from_ascii R before token rest :
  Forall (λ c, c < 128) token →
  lower_from R before (token ++ rest)
  = map ascii_lower token ++ lower_from R (before ++ token) rest.
Proof.
  intros H. revert before. induction H as [|c token Hc _ IH]; intros before; simpl.
  - by rewrite app_nil_r.
  - unfold lower_ucs4.
    destruct (N.eqb_spec c 931); [lia |].
    destruct (N.ltb_spec c 128); [| lia].
    simpl. by rewrite IH, <- app_assoc.
Qed.

(** A token that lower-cases to the command: six visible ASCII characters. *)
Lemma command_token_shape token :
  map ascii_lower token = text "/brief" →
  ∃ body last, token = body ++ [last]
    ∧ Forall (λ c, c < 128) token
    ∧ isspace last = false
    ∧ match token with [] => True | c :: _ => isspace c = false end.
Proof.
  intros H.
  destruct token as [|c1 [|c2 [|c3 [|c4 [|c5 [|c6 [|]]]]]]]; try discriminate.
  injection H as H1 H2 H3 H4 H5 H6.
  assert (∀ c d, ascii_lower c = d → d < 128 → isspace d = false →
                 c < 128 ∧ isspace c = false) as V.
  { intros c d <- ? ?. by apply ascii_lower_visible. }
  destruct (V _ _ H1) as [? ?]; [done | done |].
  destruct (V _ _ H2) as [? ?]; [done | done |].
  destruct (V _ _ H3) as [? ?]; [done | done |].
  destruct (V _ _ H4) as [? ?]; [done | done |].
  destruct (V _ _ H5) as [? ?]; [done | done |].
  destruct (V _ _ H6) as [? ?]; [done | done |].
  exists [c1; c2; c3; c4; c5], c6.
  repeat split; try done. repeat constructor; done.
Qed.

(** ** CommandRouter *)

(** C6. Routing is a total function of the text alone: a text is Brief
    exactly when its stripped, lower-cased form starts with [/brief], it is
    PlainChat in every other case, and whatever follows the command token
    (in any letter case, after any leading whitespace) does not matter. *)
Theorem route_is_prefix_match (R : py_runtime) (t : pystr) :
  (route R t = Brief ↔ text "/brief" `prefix_of` lower R (strip t))
  ∧ (route R t = PlainChat ↔ ¬ text "/brief" `prefix_of` lower R (strip t))
  ∧ (∀ lead token rest,
        forallb isspace lead = true →
        map ascii_lower token = text "/brief" →
        route R (lead ++ token ++ rest) = Brief).
Proof.
  assert (∀ x, route R x = Brief ↔ text "/brief" `prefix_of` lower R (strip x)) as char.
  { intros x. unfold route, is_brief. rewrite <- startswith_prefix.
    destruct (startswith _ _); split; done. }
  split; [apply char |]. split.
  - rewrite <- char. unfold route. destruct (is_brief R t); split; done.
  - intros lead token rest Hlead Htok. apply char.
    destruct (command_token_shape token Htok) as (body & last & -> & Hascii & Hlast & Hfirst).
    destruct (strip_keeps_token lead body last rest Hlead Hfirst Hlast) as [rest' ->].
    unfold lower. rewrite lower_from_ascii by done.
    rewrite Htok. by eexists.
Qed.

(** Leading blanks, capitals and trailing words still give Brief; a
    greeting gives PlainChat. *)
Lemma route_is_prefix_match_witness :
  route sample_runtime (text "  /BRIEF now") = Brief
  ∧ route sample_runtime (text "hello") = PlainChat.
Proof.
  split.
  - apply (route_is_prefix_match sample_runtime []
             : _ ∧ _ ∧ (∀ lead token rest, _ → _ → _))
      with (lead := text "  ") (token := text "/BRIEF") (rest := text " now");
      reflexivity.
  - apply (route_is_prefix_match sample_runtime (text "hello")).
    vm_compute. intros [k Hk]. discriminate.
Defined.

(** ** ExternalDataFetcher *)

(** C5. Without its credential a fetcher returns the empty list at once:
    the state is untouched and nothing at all is emitted, so there is no
    request, no warning and no exception.  For events the same holds when
    the location is empty. *)
Theorem fetch_without_credential (cfg : settings) (w : world)
    (profession location : pystr) (s : app_state) :
  (news_api_key cfg = [] → _query_news cfg w profession s = (s, [], Ok []))
  ∧ (event_api_key cfg = [] ∨ location = [] →
     _query_events cfg w location profession s = (s, [], Ok [])).
Proof.
  split.
  - intros H. unfold _query_news. by rewrite H.
  - intros H. unfold _query_events.
    destruct H as [-> | ->]; [done |].
    by rewrite orb_true_r.
Qed.

Lemma fetch_without_credential_witness :
  let cfg := {| openai_api_key := text "sk-test"; news_api_key := [];
                event_api_key := []; profession := text "designer";
                location := [] |} in
  _query_news cfg sample_world (text "designer") fresh = (fresh, [], Ok [])
  ∧ _query_events cfg sample_world [] (text "designer") fresh = (fresh, [], Ok []).
Proof.
  intros cfg.
  destruct (fetch_without_credential cfg sample_world (text "designer") [] fresh)
    as [Hnews Hevents].
  split; [apply Hnews; reflexivity | apply Hevents; right; reflexivity].
Defined.

Lemma ordinary_rbind {A B} (r : result A) (k : A → result B) :
  ordinary r → (∀ a, ordinary (k a)) → ordinary (rbind r k).
Proof. destruct r; simpl; auto. Qed.

Lemma ordinary_map_result {A B} (f : A → result B) l :
  (∀ a, ordinary (f a)) → ordinary (map_result f l).
Proof.
  intros Hf. induction l as [|a l IH]; simpl; [done |].
  apply ordinary_rbind; [apply Hf |]. intros b.
  apply ordinary_rbind; [apply IH | done].
Qed.

Lemma ordinary_subscript v k : ordinary (subscript v k).
Proof. destruct v; simpl; try done. by destruct (assoc k entries). Qed.

Lemma ordinary_dict_get v k d : ordinary (dict_get v k d).
Proof. destruct v; simpl; try done. by destruct (assoc k entries). Qed.

Lemma ordinary_iterate v : ordinary (iterate v).
Proof. by destruct v. Qed.

Lemma ordinary_slice_to n v : ordinary (slice_to n v).
Proof. by destruct v. Qed.

Ltac ordinary_steps :=
  repeat first
    [ apply ordinary_rbind; [| intros ?]
    | apply ordinary_subscript | apply ordinary_dict_get
    | apply ordinary_iterate | apply ordinary_slice_to
    | apply ordinary_map_result; intros ?
    | exact I ].

Lemma ordinary_news_items_of data : ordinary (news_items_of data).
Proof. unfold news_items_of, news_item_of. ordinary_steps. Qed.

Lemma ordinary_event_items_of data : ordinary (event_items_of data).
Proof. unfold event_items_of, event_item_of. ordinary_steps. Qed.

Lemma ordinary_attempt {A} (extract : pyval → result (list A)) o :
  (∀ v, ordinary (extract v)) → ordinary (attempt extract o).
Proof.
  intros H. destruct o as [d | res]; simpl; [done |].
  unfold raise_for_status, json.
  destruct (_ && _); simpl; [done |].
  destruct (decoded res); simpl; [apply H | done].
Qed.

Lemma provider_failed_attempt {A} (extract : pyval → result (list A)) o e :
  provider_failed extract o e → attempt extract o = Raise e.
Proof.
  assert (∀ z, ¬ (400 ≤ z < 600)%Z → ((400 <=? z) && (z <? 600))%Z = false) as off.
  { intros z Hz. apply andb_false_iff.
    destruct (Z.leb_spec 400 z); [right; apply Z.ltb_ge; lia | by left]. }
  destruct 1 as [d | res Hs | res Hs Hd | res v e Hs Hd He]; simpl; [done | | |].
  - unfold raise_for_status.
    assert (((400 <=? status_code res) && (status_code res <? 600))%Z = true) as ->; [| done].
    apply andb_true_iff. split; [apply Z.leb_le | apply Z.ltb_lt]; lia.
  - unfold raise_for_status, json. by rewrite (off _ Hs), Hd.
  - unfold raise_for_status, json. by rewrite (off _ Hs), Hd.
Qed.

(** What a fetcher does once its credential is there: one request, then
    the items, or one warning and the empty list. *)
Lemma query_news_run cfg w prof s :
  news_api_key cfg ≠ [] →
  _query_news cfg w prof s
  = match attempt news_items_of (http w (news_request cfg prof)) with
    | Ok items => (s, [HttpGet (news_request cfg prof)], Ok items)
    | Raise e => (s, [HttpGet (news_request cfg prof); Warning news_warning e], Ok [])
    end.
Proof.
  intros Hkey. unfold _query_news.
  assert (truthy (news_api_key cfg) = true) as -> by (by destruct (news_api_key cfg)).
  simpl.
  pose proof (ordinary_attempt news_items_of
                (http w (news_request cfg prof)) ordinary_news_items_of) as Hord.
  unfold try_except, bind, requests_get, emit, lift, raise, ret, attempt in *.
  fold (news_request cfg prof).
  destruct (http w (news_request cfg prof)) as [d | res]; simpl in *; [done |].
  destruct (raise_for_status res) as [[] | e]; simpl in *; [| by rewrite Hord].
  destruct (json res) as [data | e]; simpl in *; [| by rewrite Hord].
  destruct (news_items_of data) as [items | e]; simpl in *; [done | by rewrite Hord].
Qed.

Lemma query_events_run cfg w loc prof s :
  event_api_key cfg ≠ [] → loc ≠ [] →
  _query_events cfg w loc prof s
  = match attempt event_items_of (http w (events_request cfg w loc prof)) with
    | Ok items => (s, [HttpGet (events_request cfg w loc prof)], Ok items)
    | Raise e =>
        (s, [HttpGet (events_request cfg w loc prof); Warning events_warning e], Ok [])
    end.
Proof.
  intros Hkey Hloc. unfold _query_events.
  assert (truthy (event_api_key cfg) = true) as -> by (by destruct (event_api_key cfg)).
  assert (truthy loc = true) as -> by (by destruct loc).
  simpl.
  pose proof (ordinary_attempt event_items_of
                (http w (events_request cfg w loc prof)) ordinary_event_items_of) as Hord.
  unfold try_except, bind, requests_get, emit, lift, raise, ret, attempt in *.
  fold (events_request cfg w loc prof).
  destruct (http w (events_request cfg w loc prof)) as [d | res]; simpl in *; [done |].
  destruct (raise_for_status res) as [[] | e]; simpl in *; [| by rewrite Hord].
  destruct (json res) as [data | e]; simpl in *; [| by rewrite Hord].
  destruct (event_items_of data) as [items | e]; simpl in *; [done | by rewrite Hord].
Qed.

Lemma map_result_raises {A B} (f : A → result B) l a :
  a ∈ l → (∃ e, f a = Raise e) → ∃ e, map_result f l = Raise e.
Proof.
  intros Hin [e He]. induction l as [|b l IH]; [by apply elem_of_nil in Hin |].
  simpl. apply elem_of_cons in Hin as [<- | Hin].
  - rewrite He. by exists e.
  - destruct (f b) as [y | e']; simpl; [| by exists e'].
    destruct (IH Hin) as [e'' ->]. by exists e''.
Qed.


Lemma subscript_present d k x : assoc k d = Some x → subscript (PyDict d) k = Ok x.
Proof. unfold subscript. by intros ->. Qed.

Lemma dict_get_absent d k default :
  assoc k d = None → dict_get (PyDict d) k default = Ok default.
Proof. unfold dict_get. by intros ->. Qed.

Lemma dict_get_present d k x default :
  assoc k d = Some x → dict_get (PyDict d) k default = Ok x.
Proof. unfold dict_get. by intros ->. Qed.




Lemma rbind_Ok {A B} (r : result A) (k : A → result B) b :
  rbind r k = Ok b → ∃ a, r = Ok a ∧ k a = Ok b.
Proof. destruct r as [a | e]; simpl; [by exists a | done]. Qed.

Lemma subscript_Ok v k x :
  subscript v k = Ok x → ∃ d, v = PyDict d ∧ assoc k d = Some x.
Proof.
  destruct v; simpl; try done.
  destruct (assoc k entries) eqn:E; [| done]. intros [= <-]. by eexists.
Qed.

(** An article gives an item only when all its fields are there. *)
Lemma news_item_requires art item :
  news_item_of art = Ok item →
  ∃ d sd,
    art = PyDict d
    ∧ assoc (text "title") d = Some (News.title item)
    ∧ assoc (text "url") d = Some (News.url item)
    ∧ assoc (text "source") d = Some (PyDict sd)
    ∧ assoc (text "name") sd = Some (News.source item).
Proof.
  unfold news_item_of. intros H.
  apply rbind_Ok in H as (t & Ht & H). apply rbind_Ok in H as (u & Hu & H).
  apply rbind_Ok in H as (src & Hsrc & H). apply rbind_Ok in H as (n & Hn & H).
  injection H as <-. cbn [News.title News.url News.source].
  apply subscript_Ok in Ht as (d & -> & Ht).
  apply subscript_Ok in Hu as (d' & [= <-] & Hu).
  apply subscript_Ok in Hsrc as (d' & [= <-] & Hsrc).
  apply subscript_Ok in Hn as (sd & -> & Hn).
  by exists d, sd.
Qed.

(** An event gives an item only when its name, link and start are there. *)
Lemma event_item_requires ev item :
  event_item_of ev = Ok item →
  ∃ d nd std lc,
    ev = PyDict d
    ∧ assoc (text "name") d = Some (PyDict nd)
    ∧ assoc (text "text") nd = Some (Event.name item)
    ∧ assoc (text "url") d = Some (Event.url item)
    ∧ assoc (text "start") d = Some (PyDict std)
    ∧ assoc (text "local") std = Some lc
    ∧ slice_to 10 lc = Ok (Event.start item).
Proof.
  unfold event_item_of. intros H.
  apply rbind_Ok in H as (nm & Hnm & H). apply rbind_Ok in H as (n & Hn & H).
  apply rbind_Ok in H as (u & Hu & H). apply rbind_Ok in H as (st & Hst & H).
  apply rbind_Ok in H as (lc & Hlc & H). apply rbind_Ok in H as (day & Hday & H).
  apply rbind_Ok in H as (ven & Hven & H). apply rbind_Ok in H as (v & Hv & H).
  injection H as <-. cbn [Event.name Event.url Event.start].
  apply subscript_Ok in Hnm as (d & -> & Hnm).
  apply subscript_Ok in Hn as (nd & -> & Hn).
  apply subscript_Ok in Hu as (d' & [= <-] & Hu).
  apply subscript_Ok in Hst as (d' & [= <-] & Hst).
  apply subscript_Ok in Hlc as (std & -> & Hlc).
  by exists d, nd, std, lc.
Qed.

(** C4, as the code has it. Only the venue is read with a default: an event
    with no [venue], or a venue with no [name], still gives its item, with
    the empty string as venue.  Every other field is required (title, url,
    source and its name for an article; name and its text, url, start and
    its local time for an event): an item is produced only when all of
    them are there, and a missing one raises [KeyError] for the first
    field that is missing.  One article whose extraction raises, or one
    such event among the first three, makes the whole fetch end with a
    warning and the empty list. *)
Theorem only_the_venue_has_a_default (cfg : settings) (w : world)
    (prof loc : pystr) (s : app_state) (d : list (pystr * pyval)) :
  (∀ nm n u st lc date,
      assoc (text "name") d = Some nm → subscript nm (text "text") = Ok n →
      assoc (text "url") d = Some u →
      assoc (text "start") d = Some st → subscript st (text "local") = Ok lc →
      slice_to 10 lc = Ok date →
      (assoc (text "venue") d = None
       ∨ ∃ vd, assoc (text "venue") d = Some (PyDict vd) ∧ assoc (text "name") vd = None) →
      event_item_of (PyDict d)
      = Ok {| Event.name := n; Event.url := u; Event.start := date;
              Event.venue := PyStr [] |})
  ∧ (assoc (text "title") d = None →
     news_item_of (PyDict d) = Raise (KeyError (text "title")))
  ∧ (assoc (text "name") d = None →
     event_item_of (PyDict d) = Raise (KeyError (text "name")))
  ∧ (news_api_key cfg ≠ [] → assoc (text "title") d = None →
     ∀ res arts fields,
       http w (news_request cfg prof) = Answered res →
       ¬ (400 ≤ status_code res < 600)%Z →
       decoded res = Some (PyDict fields) →
       assoc (text "articles") fields = Some (PyList arts) →
       PyDict d ∈ arts →
       ∃ e, _query_news cfg w prof s
            = (s, [HttpGet (news_request cfg prof); Warning news_warning e], Ok []))
  ∧ (event_api_key cfg ≠ [] → loc ≠ [] → assoc (text "name") d = None →
     ∀ res evs fields,
       http w (events_request cfg w loc prof) = Answered res →
       ¬ (400 ≤ status_code res < 600)%Z →
       decoded res = Some (PyDict fields) →
       assoc (text "events") fields = Some (PyList evs) →
       PyDict d ∈ take 3 evs →
       ∃ e, _query_events cfg w loc prof s
            = (s, [HttpGet (events_request cfg w loc prof); Warning events_warning e],
               Ok []))
  ∧ (∀ item, news_item_of (PyDict d) = Ok item →
       ∃ sd, assoc (text "title") d = Some (News.title item)
             ∧ assoc (text "url") d = Some (News.url item)
             ∧ assoc (text "source") d = Some (PyDict sd)
             ∧ assoc (text "name") sd = Some (News.source item))
  ∧ (∀ item, event_item_of (PyDict d) = Ok item →
       ∃ nd std lc,
         assoc (text "name") d = Some (PyDict nd)
         ∧ assoc (text "text") nd = Some (Event.name item)
         ∧ assoc (text "url") d = Some (Event.url item)
         ∧ assoc (text "start") d = Some (PyDict std)
         ∧ assoc (text "local") std = Some lc
         ∧ slice_to 10 lc = Ok (Event.start item))
  ∧ (∀ t, assoc (text "title") d = Some t →
       (assoc (text "url") d = None →
        news_item_of (PyDict d) = Raise (KeyError (text "url")))
       ∧ ∀ u, assoc (text "url") d = Some u →
           (assoc (text "source") d = None →
            news_item_of (PyDict d) = Raise (KeyError (text "source")))
           ∧ ∀ sd, assoc (text "source") d = Some (PyDict sd) →
               assoc (text "name") sd = None →
               news_item_of (PyDict d) = Raise (KeyError (text "name")))
  ∧ (∀ nd, assoc (text "name") d = Some (PyDict nd) →
       (assoc (text "text") nd = None →
        event_item_of (PyDict d) = Raise (KeyError (text "text")))
       ∧ ∀ n, assoc (text "text") nd = Some n →
           (assoc (text "url") d = None →
            event_item_of (PyDict d) = Raise (KeyError (text "url")))
           ∧ ∀ u, assoc (text "url") d = Some u →
               (assoc (text "start") d = None →
                event_item_of (PyDict d) = Raise (KeyError (text "start")))
               ∧ ∀ std, assoc (text "start") d = Some (PyDict std) →
                   assoc (text "local") std = None →
                   event_item_of (PyDict d) = Raise (KeyError (text "local")))
  ∧ (news_api_key cfg ≠ [] →
     ∀ res arts fields art e0,
       http w (news_request cfg prof) = Answered res →
       ¬ (400 ≤ status_code res < 600)%Z →
       decoded res = Some (PyDict fields) →
       assoc (text "articles") fields = Some (PyList arts) →
       art ∈ arts → news_item_of art = Raise e0 →
       ∃ e, _query_news cfg w prof s
            = (s, [HttpGet (news_request cfg prof); Warning news_warning e], Ok []))
  ∧ (event_api_key cfg ≠ [] → loc ≠ [] →
     ∀ res evs fields ev e0,
       http w (events_request cfg w loc prof) = Answered res →
       ¬ (400 ≤ status_code res < 600)%Z →
       decoded res = Some (PyDict fields) →
       assoc (text "events") fields = Some (PyList evs) →
       ev ∈ take 3 evs → event_item_of ev = Raise e0 →
       ∃ e, _query_events cfg w loc prof s
            = (s, [HttpGet (events_request cfg w loc prof); Warning events_warning e],
               Ok [])).
Proof.
  assert (assoc (text "title") d = None →
          news_item_of (PyDict d) = Raise (KeyError (text "title"))) as Htitle.
  { intros H. unfold news_item_of, subscript. by rewrite H. }
  assert (assoc (text "name") d = None →
          event_item_of (PyDict d) = Raise (KeyError (text "name"))) as Hname.
  { intros H. unfold event_item_of, subscript at 1. by rewrite H. }
  assert (news_api_key cfg ≠ [] →
          ∀ res arts fields art e0,
            http w (news_request cfg prof) = Answered res →
            ¬ (400 ≤ status_code res < 600)%Z →
            decoded res = Some (PyDict fields) →
            assoc (text "articles") fields = Some (PyList arts) →
            art ∈ arts → news_item_of art = Raise e0 →
            ∃ e, _query_news cfg w prof s
                 = (s, [HttpGet (news_request cfg prof); Warning news_warning e], Ok []))
    as Hnews.
  { intros K res arts fields art e0 Hhttp Hstatus Hbody Harts Hin Hraise.
    destruct (map_result_raises news_item_of arts art Hin) as [e He]; [by eexists |].
    exists e. rewrite query_news_run by done.
    rewrite (provider_failed_attempt news_items_of _ e); [done |].
    rewrite Hhttp. eapply unusable_payload; [done | done |].
    unfold news_items_of, dict_get. rewrite Harts. simpl. done. }
  assert (event_api_key cfg ≠ [] → loc ≠ [] →
          ∀ res evs fields ev e0,
            http w (events_request cfg w loc prof) = Answered res →
            ¬ (400 ≤ status_code res < 600)%Z →
            decoded res = Some (PyDict fields) →
            assoc (text "events") fields = Some (PyList evs) →
            ev ∈ take 3 evs → event_item_of ev = Raise e0 →
            ∃ e, _query_events cfg w loc prof s
                 = (s, [HttpGet (events_request cfg w loc prof); Warning events_warning e],
                    Ok [])) as Hevents.
  { intros K L res evs fields ev e0 Hhttp Hstatus Hbody Hevs Hin Hraise.
    destruct (map_result_raises event_item_of (take 3 evs) ev Hin) as [e He];
      [by eexists |].
    exists e. rewrite query_events_run by done.
    rewrite (provider_failed_attempt event_items_of _ e); [done |].
    rewrite Hhttp. eapply unusable_payload; [done | done |].
    unfold event_items_of, dict_get. rewrite Hevs. simpl. done. }
  split; [| split; [done | split; [done | split; [| split; [| split; [| split;
    [| split; [| split; [| split; [done | done]]]]]]]]]].
  - intros nm n u st lc date Hnm Hn Hu Hst Hlc Hdate Hvenue.
    unfold event_item_of.
    rewrite (subscript_present _ _ _ Hnm). cbn [rbind]. rewrite Hn. cbn [rbind].
    rewrite (subscript_present _ _ _ Hu). cbn [rbind].
    rewrite (subscript_present _ _ _ Hst). cbn [rbind]. rewrite Hlc. cbn [rbind].
    rewrite Hdate. cbn [rbind].
    destruct Hvenue as [Hv | (vd & Hv & Hvd)].
    + rewrite (dict_get_absent _ _ _ Hv). cbn [rbind].
      by rewrite (dict_get_absent [] (text "name") (PyStr [])).
    + rewrite (dict_get_present _ _ _ _ Hv). cbn [rbind].
      by rewrite (dict_get_absent _ _ _ Hvd).
  - intros K Hd res arts fields Hhttp Hstatus Hbody Harts Hin.
    eapply Hnews; eauto.
  - intros K L Hd res evs fields Hhttp Hstatus Hbody Hevs Hin.
    eapply Hevents; eauto.
  - intros item H. destruct (news_item_requires _ _ H) as (d' & sd & [= <-] & ?).
    by exists sd.
  - intros item H.
    destruct (event_item_requires _ _ H) as (d' & nd & std & lc & [= <-] & ?).
    by exists nd, std, lc.
  - intros t Ht. unfold news_item_of.
    rewrite (subscript_present _ _ _ Ht). cbn [rbind]. split.
    + intros H. unfold subscript at 1. by rewrite H.
    + intros u Hu. rewrite (subscript_present _ _ _ Hu). cbn [rbind]. split.
      * intros H. unfold subscript at 1. by rewrite H.
      * intros sd Hsd H. rewrite (subscript_present _ _ _ Hsd). cbn [rbind].
        unfold subscript. by rewrite H.
  - intros nd Hnd. unfold event_item_of.
    rewrite (subscript_present _ _ _ Hnd). cbn [rbind]. split.
    + intros H. unfold subscript at 1. by rewrite H.
    + intros n Hn. rewrite (subscript_present _ _ _ Hn). cbn [rbind]. split.
      * intros H. unfold subscript at 1. by rewrite H.
      * intros u Hu. rewrite (subscript_present _ _ _ Hu). cbn [rbind]. split.
        -- intros H. unfold subscript at 1. by rewrite H.
        -- intros std Hstd H. rewrite (subscript_present _ _ _ Hstd). cbn [rbind].
           unfold subscript at 1. by rewrite H.
Qed.

Lemma only_the_venue_has_a_default_witness :
  event_item_of sample_event
  = Ok {| Event.name := PyStr (text "Design meetup");
          Event.url := PyStr (text "https://example.org/e");
          Event.start := PyStr (text "2025-06-10");
          Event.venue := PyStr [] |}
  ∧ ∃ e, _query_news sample_settings
           (world_serving 200 (Some body_with_untitled_article)) (text "designer") fresh
         = (fresh,
            [HttpGet (news_request sample_settings (text "designer"));
             Warning news_warning e],
            Ok []).
Proof.
  split.
  - refine (proj1 (only_the_venue_has_a_default sample_settings sample_world [] [] fresh
                     [ (text "name", PyDict [ (text "text", PyStr (text "Design meetup")) ]);
                       (text "url", PyStr (text "https://example.org/e"));
                       (text "start",
                        PyDict [ (text "local", PyStr (text "2025-06-10T19:00:00")) ]) ])
                  _ _ _ _ _ _ _ _ _ _ _ _ _);
      try reflexivity.
    left. reflexivity.
  - refine (proj1 (proj2 (proj2 (proj2
              (only_the_venue_has_a_default sample_settings
                 (world_serving 200 (Some body_with_untitled_article))
                 (text "designer") [] fresh
                 [ (text "url", PyStr (text "https://example.org/b"));
                   (text "source", PyDict [ (text "name", PyStr (text "S")) ]) ]))))
              _ _ _ [ sample_article; untitled_article ] _ _ _ _ _ _);
      try reflexivity; try discriminate.
    + simpl. lia.
    + repeat constructor.
Defined.

(** C4 fails for a required field: an article without [title] is not
    returned with an empty title.  Extraction raises [KeyError], and the
    fetcher gives up the whole list, the complete first article included. *)
Lemma untitled_article_fails_the_whole_list :
  news_items_of body_with_untitled_article = Raise (KeyError (text "title"))
  ∧ _query_news sample_settings
      (world_serving 200 (Some body_with_untitled_article)) (text "designer") fresh
    = (fresh,
       [HttpGet (news_request sample_settings (text "designer"));
        Warning news_warning (KeyError (text "title"))],
       Ok []).
Proof. split; vm_compute; reflexivity. Qed.

(** ** ConversationStore *)

Lemma payload_of_id ms : payload_of ms = ms.
Proof.
  unfold payload_of. induction ms as [|[r c] ms IH]; simpl; [done |]. by rewrite IH.
Qed.

Lemma display_visible ms :
  display ms
  = map (λ m, ChatMessage (role m) (content m))
        (List.filter (λ m, negb (chat_role_eqb (role m) system)) ms).
Proof.
  induction ms as [|m ms IH]; simpl; [done |].
  destruct (chat_role_eqb (role m) system); simpl; by rewrite IH.
Qed.

(** ** ChatOrchestrator *)

(** A non-empty text that is not a command: the user turn, the model
    request with the whole transcript, the streamed fragments, and the
    assistant turn unless the model call raised. *)
Lemma plain_chat_run R cfg w t s ms :
  t ≠ [] → is_brief R t = false → messages s = Some ms →
  let asked := {| role := user; content := t |} in
  let reply := llm w model_id (ms ++ [asked]) in
  handler R cfg w (Some t) s
  = (match failure reply with
     | None =>
         {| messages :=
              Some ((ms ++ [asked])
                    ++ [{| role := assistant; content := concat (chunks reply) |}]);
            cache := cache s |}
     | Some _ => {| messages := Some (ms ++ [asked]); cache := cache s |}
     end,
     ChatMessage user t :: LlmRequest model_id (ms ++ [asked])
       :: map StreamChunk (chunks reply),
     match failure reply with
     | None => Ok ()
     | Some e => Raise e
     end).
Proof.
  intros Ht Hb Hms asked reply. unfold handler, handle_input.
  assert (truthy t = true) as -> by (by destruct t).
  rewrite Hb.
  unfold bind, append_message, emit, ret, chat_completion. rewrite Hms. cbn -[model_id].
  rewrite payload_of_id. fold asked. fold reply.
  destruct (failure reply); [reflexivity |].
  by rewrite app_nil_r.
Qed.

Lemma script_prelude R cfg w inp s ms :
  openai_api_key cfg ≠ [] → messages s = Some ms →
  script R cfg w inp s
  = (let '(s1, t1, r) := handler R cfg w inp s in (s1, display ms ++ t1, r)).
Proof.
  intros K Hms. unfold script.
  assert (truthy (openai_api_key cfg) = true) as -> by (by destruct (openai_api_key cfg)).
  cbn [negb]. unfold bind at 1 2 3. unfold ret at 1, init_session, display_messages.
  rewrite Hms. cbn iota beta. rewrite Hms. cbn iota beta.
  destruct (handler R cfg w inp s) as [[s1 t1] r]. reflexivity.
Qed.

(** C3, as the code has it. When the chat box delivers nothing or the
    empty text, the handler does nothing at all: same state, no output, no
    exception; the run then only replays the visible turns.  A text made of
    whitespace only is not empty: it becomes a user turn, is routed as
    plain chat and is sent to the model. *)
Theorem empty_input_is_ignored (R : py_runtime) (cfg : settings) (w : world)
    (s : app_state) :
  handler R cfg w None s = (s, [], Ok ())
  ∧ handler R cfg w (Some []) s = (s, [], Ok ())
  ∧ (∀ ms inp, openai_api_key cfg ≠ [] → messages s = Some ms →
       inp = None ∨ inp = Some [] →
       script R cfg w inp s = (s, display ms, Ok ()))
  ∧ (∀ t ms, t ≠ [] → forallb isspace t = true → messages s = Some ms →
       route R t = PlainChat
       ∧ ∃ s1 rest r more,
           handler R cfg w (Some t) s
           = (s1,
              ChatMessage user t
                :: LlmRequest model_id (ms ++ [{| role := user; content := t |}]) :: rest,
              r)
           ∧ messages s1 = Some (ms ++ {| role := user; content := t |} :: more)).
Proof.
  split; [done | split; [done | split]].
  - intros ms inp K Hms Hinp. rewrite (script_prelude R cfg w inp s ms K Hms).
    destruct Hinp as [-> | ->]; simpl; by rewrite app_nil_r.
  - intros t ms Ht Hsp Hms.
    assert (is_brief R t = false) as Hb.
    { unfold is_brief, strip, rstrip. by rewrite (lstrip_all_space t Hsp). }
    split; [unfold route; by rewrite Hb |].
    rewrite (plain_chat_run R cfg w t s ms Ht Hb Hms).
    destruct (failure _); eexists _, _, _, _; (split; [reflexivity |]); simpl.
    + reflexivity.
    + by rewrite <- app_assoc.
Qed.

Lemma empty_input_is_ignored_witness :
  script sample_runtime sample_settings sample_world (Some []) sample_session
  = (sample_session, display [ sample_base ], Ok ())
  ∧ route sample_runtime (text " ") = PlainChat.
Proof.
  destruct (empty_input_is_ignored sample_runtime sample_settings sample_world
              sample_session) as (_ & _ & Hscript & Hblank).
  split.
  - apply Hscript; [discriminate | reflexivity | by right].
  - apply (Hblank (text " ") [ sample_base ]); [discriminate | reflexivity | reflexivity].
Defined.

(** C3 fails for whitespace: a single blank is accepted.  The transcript
    gains a user turn and an assistant turn, and the model is invoked. *)
Lemma blank_text_is_handled :
  handler sample_runtime sample_settings sample_world (Some (text " ")) sample_session
  = ({| messages :=
          Some [ sample_base;
                 {| role := user; content := text " " |};
                 {| role := assistant; content := text "Hello" |} ];
        cache := ∅ |},
     [ ChatMessage user (text " ");
       LlmRequest model_id [ sample_base; {| role := user; content := text " " |} ];
       StreamChunk (text "Hel"); StreamChunk (text "lo") ],
     Ok ()).
Proof. vm_compute. reflexivity. Qed.

(** C9. What the page shows of a transcript is the transcript without its
    system turns, in the same order; a run with nothing submitted shows
    exactly that.  What the model receives is the transcript itself, system
    turns included. *)
Theorem system_turns_hidden_but_sent (R : py_runtime) (cfg : settings) (w : world)
    (s : app_state) (ms : list turn) :
  messages s = Some ms →
  display ms
  = map (λ m, ChatMessage (role m) (content m))
        (List.filter (λ m, negb (chat_role_eqb (role m) system)) ms)
  ∧ (openai_api_key cfg ≠ [] → script R cfg w None s = (s, display ms, Ok ()))
  ∧ payload_of ms = ms
  ∧ ∃ r, chat_completion w s
         = (s, LlmRequest model_id ms :: map StreamChunk (chunks (llm w model_id ms)), r).
Proof.
  intros Hms. split; [apply display_visible | split; [| split; [apply payload_of_id |]]].
  - intros K. rewrite (script_prelude R cfg w None s ms K Hms). simpl.
    by rewrite app_nil_r.
  - unfold chat_completion. rewrite Hms, payload_of_id. by eexists.
Qed.

Lemma system_turns_hidden_but_sent_witness :
  display [ sample_base; {| role := user; content := text "hello" |} ]
  = [ ChatMessage user (text "hello") ]
  ∧ payload_of [ sample_base; {| role := user; content := text "hello" |} ]
    = [ sample_base; {| role := user; content := text "hello" |} ].
Proof.
  destruct (system_turns_hidden_but_sent sample_runtime sample_settings sample_world
              {| messages := Some [ sample_base; {| role := user; content := text "hello" |} ];
                 cache := ∅ |}
              [ sample_base; {| role := user; content := text "hello" |} ] eq_refl)
    as (Hshow & _ & Hsend & _).
  split; [rewrite Hshow; reflexivity | exact Hsend].
Defined.

(** ** PromptComposer *)

Lemma briefing_intro_text :
  briefing_intro = text "You gathered the following data:" ++ nl ++ nl.
Proof. vm_compute. reflexivity. Qed.

Lemma news_header_text : news_header = text "Recent news headlines:" ++ nl.
Proof. vm_compute. reflexivity. Qed.

Lemma events_header_text : events_header = text "Upcoming events:" ++ nl.
Proof. vm_compute. reflexivity. Qed.

Lemma no_data_marker_text :
  no_data_marker = text "(No external data available)" ++ nl ++ nl.
Proof. vm_compute. reflexivity. Qed.

Lemma briefing_instruction_text :
  briefing_instruction
  = text "Please craft a Korean daily briefing in bullet points (max 120 words), then suggest next actions.".
Proof. vm_compute. reflexivity. Qed.

Lemma news_section_code R news :
  news_section R news
  = match news with
    | [] => []
    | _ :: _ => news_header ++ join nl (map (news_line R) news) ++ nl ++ nl
    end.
Proof.
  destruct news; [reflexivity |]. unfold news_section.
  rewrite <- news_header_text. reflexivity.
Qed.

Lemma events_section_code R events :
  events_section R events
  = match events with
    | [] => []
    | _ :: _ => events_header ++ join nl (map (event_line R) events) ++ nl ++ nl
    end.
Proof.
  destruct events; [reflexivity |]. unfold events_section.
  rewrite <- events_header_text. reflexivity.
Qed.

Lemma marker_section_code news events :
  marker_section news events
  = match news, events with
    | [], [] => no_data_marker
    | _, _ => []
    end.
Proof. destruct news, events; reflexivity. Qed.

Lemma briefing_context_sections R news events :
  briefing_context R news events
  = briefing_intro ++ news_section R news ++ events_section R events
    ++ marker_section news events ++ briefing_instruction.
Proof.
  rewrite news_section_code, events_section_code, marker_section_code.
  unfold briefing_context.
  destruct news, events; cbn [truthy negb andb];
    rewrite ?app_nil_r, <- ?app_assoc; reflexivity.
Qed.

Lemma news_line_in_section R news n :
  n ∈ news → contains (news_section R news) (news_line R n).
Proof.
  intros Hn. rewrite news_section_code.
  destruct news as [|n0 news]; [by apply elem_of_nil in Hn |].
  apply contains_app_r, contains_app_l, contains_join.
  apply list_elem_of_fmap. by exists n.
Qed.

Lemma event_line_in_section R events e :
  e ∈ events → contains (events_section R events) (event_line R e).
Proof.
  intros He. rewrite events_section_code.
  destruct events as [|e0 events]; [by apply elem_of_nil in He |].
  apply contains_app_r, contains_app_l, contains_join.
  apply list_elem_of_fmap. by exists e.
Qed.

(** C7. The briefing text is the introduction, then the news section, then
    the events section, then the no-data marker, then the closing
    instruction that asks for bullet points of at most 120 words and for
    next actions.  A section is there exactly when its list is not empty;
    it begins with its header ([Recent news headlines:], [Upcoming
    events:]) and holds the line of every item: title and source for an
    article, date, name and venue for an event.  The marker is there
    exactly when both lists are empty, and then neither header occurs
    anywhere in the text. *)
Theorem briefing_context_template (R : py_runtime)
    (news : list News.item) (events : list Event.item) :
  let intro := text "You gathered the following data:" ++ nl ++ nl in
  let instruction :=
    text "Please craft a Korean daily briefing in bullet points (max 120 words), then suggest next actions." in
  briefing_context R news events
  = intro ++ news_section R news ++ events_section R events
    ++ marker_section news events ++ instruction
  ∧ (news_section R news = [] ↔ news = [])
  ∧ (events_section R events = [] ↔ events = [])
  ∧ (marker_section news events = text "(No external data available)" ++ nl ++ nl
     ↔ news = [] ∧ events = [])
  ∧ (marker_section news events = [] ↔ ¬ (news = [] ∧ events = []))
  ∧ (news ≠ [] →
     (text "Recent news headlines:" ++ nl) `prefix_of` news_section R news
     ∧ contains (briefing_context R news events) (text "Recent news"))
  ∧ (∀ n, n ∈ news →
       contains (news_section R news)
         (text "- " ++ field_text R (News.title n) ++ text " ("
          ++ field_text R (News.source n) ++ text ")")
       ∧ ∀ ttl src, News.title n = PyStr ttl → News.source n = PyStr src →
           contains (briefing_context R news events)
             (text "- " ++ ttl ++ text " (" ++ src ++ text ")"))
  ∧ (events ≠ [] →
     (text "Upcoming events:" ++ nl) `prefix_of` events_section R events
     ∧ contains (briefing_context R news events) (text "Upcoming events"))
  ∧ (∀ e, e ∈ events →
       contains (events_section R events)
         (text "- " ++ field_text R (Event.start e) ++ text " "
          ++ field_text R (Event.name e) ++ text " @ " ++ field_text R (Event.venue e))
       ∧ ∀ day nm place,
           Event.start e = PyStr day → Event.name e = PyStr nm →
           Event.venue e = PyStr place →
           contains (briefing_context R news events)
             (text "- " ++ day ++ text " " ++ nm ++ text " @ " ++ place))
  ∧ instruction `suffix_of` briefing_context R news events
  ∧ contains (briefing_context R news events) (text "(max 120 words)")
  ∧ (news = [] → events = [] →
     contains (briefing_context R news events) (text "(No external data available)")
     ∧ ¬ contains (briefing_context R news events) (text "Recent news")
     ∧ ¬ contains (briefing_context R news events) (text "Upcoming events")).
Proof.
  intros intro instruction.
  assert (briefing_context R news events
          = intro ++ news_section R news ++ events_section R events
            ++ marker_section news events ++ instruction) as E.
  { unfold intro, instruction.
    rewrite <- briefing_intro_text, <- briefing_instruction_text.
    apply briefing_context_sections. }
  assert (∀ x, contains (news_section R news) x → contains (briefing_context R news events) x)
    as Hnews.
  { intros x Hx. rewrite E. by apply contains_app_r, contains_app_l. }
  assert (∀ x, contains (events_section R events) x →
               contains (briefing_context R news events) x) as Hevents.
  { intros x Hx. rewrite E. by apply contains_app_r, contains_app_r, contains_app_l. }
  split; [exact E |].
  split; [rewrite news_section_code; destruct news; split; done |].
  split; [rewrite events_section_code; destruct events; split; done |].
  split.
  { rewrite marker_section_code, <- no_data_marker_text.
    destruct news, events; split; try done; intros [? ?]; done. }
  split.
  { rewrite marker_section_code.
    destruct news, events; split; try done; intros H; try (by destruct H);
      intros [? ?]; done. }
  split.
  { intros Hne. assert ((text "Recent news headlines:" ++ nl) `prefix_of` news_section R news)
      as Hpre by (destruct news; [done | by eexists]).
    split; [exact Hpre |]. apply Hnews. destruct Hpre as [k ->].
    apply contains_app_l, containsb_contains. vm_compute. reflexivity. }
  split.
  { intros n Hn. split; [exact (news_line_in_section R news n Hn) |].
    intros ttl src Ht Hs. apply Hnews.
    pose proof (news_line_in_section R news n Hn) as H.
    unfold news_line, format in H. by rewrite Ht, Hs in H. }
  split.
  { intros Hne.
    assert ((text "Upcoming events:" ++ nl) `prefix_of` events_section R events)
      as Hpre by (destruct events; [done | by eexists]).
    split; [exact Hpre |]. apply Hevents. destruct Hpre as [k ->].
    apply contains_app_l, containsb_contains. vm_compute. reflexivity. }
  split.
  { intros e He. split; [exact (event_line_in_section R events e He) |].
    intros day nm place Hd Hn Hp. apply Hevents.
    pose proof (event_line_in_section R events e He) as H.
    unfold event_line, format in H. by rewrite Hd, Hn, Hp in H. }
  split; [rewrite E; exists (intro ++ news_section R news ++ events_section R events
                               ++ marker_section news events);
          by rewrite <- !app_assoc |].
  split.
  { rewrite E. do 4 apply contains_app_r. unfold instruction.
    apply containsb_contains. vm_compute. reflexivity. }
  intros -> ->. split; [| split].
  - apply containsb_contains. vm_compute. reflexivity.
  - apply not_contains. vm_compute. reflexivity.
  - apply not_contains. vm_compute. reflexivity.
Qed.

(** The template on one article [A] from source [S] and no event. *)
Lemma briefing_context_template_witness :
  let article := {| News.title := PyStr (text "A");
                    News.url := PyStr (text "https://example.org/a");
                    News.source := PyStr (text "S") |} in
  contains (briefing_context sample_runtime [ article ] []) (text "- A (S)")
  ∧ contains (briefing_context sample_runtime [ article ] []) (text "Recent news")
  ∧ events_section sample_runtime [] = []
  ∧ contains (briefing_context sample_runtime [] []) (text "(No external data available)").
Proof.
  intros article.
  destruct (briefing_context_template sample_runtime [ article ] [])
    as (_ & _ & Hnone & _ & _ & Hhead & Hline & _).
  destruct (briefing_context_template sample_runtime [] [])
    as (_ & _ & _ & _ & _ & _ & _ & _ & _ & _ & _ & Hempty).
  split; [| split; [| split]].
  - apply (proj2 (Hline article ltac:(repeat constructor)) (text "A") (text "S"));
      reflexivity.
  - apply Hhead. discriminate.
  - apply Hnone. reflexivity.
  - apply Hempty; reflexivity.
Defined.

(** The same example by evaluation: the line of the article is there and
    the events header is not. *)
Example briefing_of_one_article :
  let ctx := briefing_context sample_runtime
               [ {| News.title := PyStr (text "A");
                    News.url := PyStr (text "https://example.org/a");
                    News.source := PyStr (text "S") |} ] [] in
  containsb ctx (text "Recent news headlines:" ++ nl ++ text "- A (S)") = true
  ∧ containsb ctx (text "Upcoming events") = false
  ∧ containsb ctx (text "(No external data available)") = false.
Proof. vm_compute. done. Qed.

(** ** DataAggregator *)

Lemma query_news_total cfg w prof s :
  ∃ t items, _query_news cfg w prof s = (s, t, Ok items)
             ∧ forallb is_fetch_event t = true.
Proof.
  destruct (decide (news_api_key cfg = [])) as [K | K].
  - exists [], []. unfold _query_news. by rewrite K.
  - rewrite query_news_run by done. destruct (attempt _ _); by eexists _, _.
Qed.

Lemma query_events_total cfg w loc prof s :
  ∃ t items, _query_events cfg w loc prof s = (s, t, Ok items)
             ∧ forallb is_fetch_event t = true.
Proof.
  destruct (decide (event_api_key cfg = [])) as [K | K];
    [| destruct (decide (loc = [])) as [L | L]].
  - exists [], []. unfold _query_events. by rewrite K.
  - exists [], []. unfold _query_events. rewrite L. by rewrite orb_true_r.
  - rewrite query_events_run by done. destruct (attempt _ _); by eexists _, _.
Qed.

Lemma fetch_uncached_total cfg w prof loc s :
  ∃ t v, fetch_uncached cfg w prof loc s = (s, t, Ok v)
         ∧ forallb is_fetch_event t = true.
Proof.
  destruct (query_news_total cfg w prof s) as (t1 & news & E1 & F1).
  destruct (query_events_total cfg w loc prof s) as (t2 & events & E2 & F2).
  exists (t1 ++ t2 ++ []), (news, events).
  unfold fetch_uncached, bind, ret. rewrite E1, E2. split; [done |].
  by rewrite !forallb_app, F1, F2.
Qed.

Lemma replay_fetch_events shown : forallb is_fetch_event (replay shown) = true.
Proof. induction shown as [|[m e] shown IH]; simpl; done. Qed.

Lemma replay_no_network shown : List.filter is_network (replay shown) = [].
Proof. induction shown as [|[m e] shown IH]; simpl; done. Qed.

(** The cached wrapper always returns a value, keeps the transcript, emits
    only fetcher events, and afterwards holds an entry for its arguments
    with the value it returned; other entries are as before. *)
Lemma fetch_shape cfg w prof loc s :
  ∃ c t v shown,
    fetch_news_and_events cfg w prof loc s
    = ({| messages := messages s; cache := c |}, t, Ok v)
    ∧ forallb is_fetch_event t = true
    ∧ c !! (prof, loc) = Some (v, shown)
    ∧ (∀ k, k ≠ (prof, loc) → c !! k = cache s !! k)
    ∧ (∀ k e, cache s !! k = Some e → c !! k = Some e).
Proof.
  unfold fetch_news_and_events.
  destruct (cache s !! (prof, loc)) as [[v shown] |] eqn:E.
  - exists (cache s), (replay shown), v, shown. destruct s as [ms c]; simpl in *.
    repeat split; auto using replay_fetch_events.
  - destruct (fetch_uncached_total cfg w prof loc s) as (t & v & -> & F).
    exists (<[(prof, loc) := (v, shown_warnings t)]> (cache s)), t, v, (shown_warnings t).
    repeat split; [done | apply lookup_insert_eq | |].
    + intros k Hk. by apply lookup_insert_ne.
    + intros k e Hk. rewrite lookup_insert_ne; [done | congruence].
Qed.

Lemma fetch_hit cfg w prof loc s v shown :
  cache s !! (prof, loc) = Some (v, shown) →
  fetch_news_and_events cfg w prof loc s = (s, replay shown, Ok v).
Proof. unfold fetch_news_and_events. by intros ->. Qed.

(** ** Growth of the state *)

Lemma extends_refl s : extends s s.
Proof. split; [done |]. intros ms ->. exists []. by rewrite app_nil_r. Qed.

Lemma extends_trans s1 s2 s3 : extends s1 s2 → extends s2 s3 → extends s1 s3.
Proof.
  intros [C1 M1] [C2 M2]. split; [auto |].
  intros ms H. destruct (M1 ms H) as [more1 H1]. destruct (M2 _ H1) as [more2 H2].
  exists (more1 ++ more2). by rewrite app_assoc.
Qed.

Lemma llm_payloads_app t1 t2 : llm_payloads (t1 ++ t2) = llm_payloads t1 ++ llm_payloads t2.
Proof.
  induction t1 as [|ev t1 IH]; simpl; [done |]. destruct ev; simpl; by rewrite ?IH.
Qed.

Lemma streamed_app t1 t2 : streamed (t1 ++ t2) = streamed t1 ++ streamed t2.
Proof.
  induction t1 as [|ev t1 IH]; simpl; [done |]. destruct ev; simpl; by rewrite ?IH.
Qed.

Lemma fetch_events_silent t :
  forallb is_fetch_event t = true → llm_payloads t = [] ∧ streamed t = [].
Proof.
  induction t as [|ev t IH]; simpl; [done |].
  intros [Hev Ht]%andb_true_iff. destruct ev; try discriminate; auto.
Qed.

Lemma display_silent ms : llm_payloads (display ms) = [] ∧ streamed (display ms) = [].
Proof.
  induction ms as [|m ms IH]; simpl; [done |].
  destruct (chat_role_eqb (role m) system); simpl; done.
Qed.

Lemma streamed_chunks fs : streamed (map StreamChunk fs) = fs.
Proof. induction fs as [|f fs IH]; simpl; [done | by rewrite IH]. Qed.

Lemma chunks_no_payload fs : llm_payloads (map StreamChunk fs) = [].
Proof. induction fs as [|f fs IH]; simpl; done. Qed.

Lemma grows_quiet {A} (m : M A) :
  (∀ s, (m s).1.1 = s ∧ llm_payloads (m s).1.2 = []) → grows m.
Proof.
  intros H s. destruct (H s) as [-> ->]. split; [apply extends_refl |].
  intros ms _ p Hp. by apply elem_of_nil in Hp.
Qed.

Lemma grows_bind {A B} (m : M A) (k : A → M B) :
  grows m → (∀ a, grows (k a)) → grows (bind m k).
Proof.
  intros Hm Hk s. unfold bind. specialize (Hm s).
  destruct (m s) as [[s1 t1] [a | e]]; simpl in *; [| done].
  specialize (Hk a s1). destruct (k a s1) as [[s2 t2] r]; simpl in *.
  destruct Hm as [E1 P1], Hk as [E2 P2].
  split; [by eapply extends_trans |].
  intros ms Hms p Hp. rewrite llm_payloads_app in Hp.
  apply elem_of_app in Hp as [Hp | Hp]; [by eapply P1 |].
  destruct E1 as [_ M1]. destruct (M1 ms Hms) as [more Hmore].
  eapply prefix_app_l, P2; done.
Qed.

Lemma grows_append_message r c : grows (append_message r c).
Proof.
  intros s. unfold append_message. destruct (messages s) as [ms |] eqn:E; simpl.
  - split; [| intros ? _ p Hp; by apply elem_of_nil in Hp].
    split; [done |]. intros ms' Hms'. rewrite E in Hms'. injection Hms' as <-.
    by eexists.
  - split; [apply extends_refl | intros ? _ p Hp; by apply elem_of_nil in Hp].
Qed.

Lemma grows_init_session cfg w : grows (init_session cfg w).
Proof.
  intros s. unfold init_session. destruct (messages s) as [ms |] eqn:E; simpl.
  - split; [apply extends_refl | intros ? _ p Hp; by apply elem_of_nil in Hp].
  - split; [| intros ? _ p Hp; by apply elem_of_nil in Hp].
    split; [done |]. intros ms' Hms'. congruence.
Qed.

Lemma grows_display_messages : grows display_messages.
Proof.
  apply grows_quiet. intros s. unfold display_messages.
  destruct (messages s); simpl; [| done]. split; [done | apply display_silent].
Qed.

Lemma grows_chat_completion w : grows (chat_completion w).
Proof.
  intros s. unfold chat_completion. destruct (messages s) as [ms |] eqn:E; simpl.
  - split; [apply extends_refl |]. intros ms' Hms' p Hp.
    rewrite chunks_no_payload, payload_of_id in Hp.
    apply list_elem_of_singleton in Hp as ->. by simplify_eq.
  - split; [apply extends_refl | intros ? _ p Hp; by apply elem_of_nil in Hp].
Qed.

Lemma grows_fetch cfg w prof loc : grows (fetch_news_and_events cfg w prof loc).
Proof.
  intros s. destruct (fetch_shape cfg w prof loc s) as (c & t & v & shown & -> & F & _ & _ & K).
  simpl. split.
  - split; [done |]. intros ms ->. exists []. by rewrite app_nil_r.
  - intros ms _ p Hp. destruct (fetch_events_silent t F) as [Hno _].
    rewrite Hno in Hp. by apply elem_of_nil in Hp.
Qed.

Lemma grows_handler R cfg w inp : grows (handler R cfg w inp).
Proof.
  assert (∀ A (a : A), grows (ret a)) as Hret.
  { intros. by apply grows_quiet. }
  destruct inp as [t |]; simpl; [| apply Hret].
  destruct (truthy t); [| apply Hret].
  unfold handle_input.
  apply grows_bind; [apply grows_append_message | intros _].
  apply grows_bind; [by apply grows_quiet | intros _].
  apply grows_bind.
  - destruct (is_brief R t); [| apply Hret].
    apply grows_bind; [apply grows_fetch | intros ?; apply grows_append_message].
  - intros _. apply grows_bind; [apply grows_chat_completion |].
    intros ?. apply grows_append_message.
Qed.

Lemma grows_script R cfg w inp : grows (script R cfg w inp).
Proof.
  unfold script.
  apply grows_bind.
  - destruct (negb _); by apply grows_quiet.
  - intros _. apply grows_bind; [apply grows_init_session | intros _].
    apply grows_bind; [apply grows_display_messages | intros _].
    apply grows_handler.
Qed.

(** Whatever runs follow, the state only grows and every model request
    carries the transcript the runs started from. *)
Lemma session_grows R runs s :
  extends s (session R runs s).1
  ∧ ∀ ms, messages s = Some ms →
      ∀ p, p ∈ llm_payloads (session R runs s).2 → ms `prefix_of` p.
Proof.
  revert s. induction runs as [|r runs IH]; intros s; simpl.
  - split; [apply extends_refl | intros ? _ p Hp; by apply elem_of_nil in Hp].
  - pose proof (grows_script R (at_settings r) (at_world r) (submitted r) s) as [E1 P1].
    destruct (script R (at_settings r) (at_world r) (submitted r) s) as [[s1 t1] r1];
      simpl in *.
    specialize (IH s1). destruct (session R runs s1) as [s2 t2]; simpl in *.
    destruct IH as [E2 P2]. split; [by eapply extends_trans |].
    intros ms Hms p Hp. rewrite llm_payloads_app in Hp.
    apply elem_of_app in Hp as [Hp | Hp]; [by eapply P1 |].
    destruct E1 as [_ M1]. destruct (M1 ms Hms) as [more Hmore].
    eapply prefix_app_l, P2; done.
Qed.

(** A command: the user turn, the cached fetch, the augmentation as a
    system turn, then the model request with all of it. *)
Lemma brief_run R cfg w t s ms c tf v :
  t ≠ [] → is_brief R t = true → messages s = Some ms →
  let asked := {| role := user; content := t |} in
  fetch_news_and_events cfg w (profession cfg) (location cfg)
    {| messages := Some (ms ++ [asked]); cache := cache s |}
  = ({| messages := Some (ms ++ [asked]); cache := c |}, tf, Ok v) →
  let aug := {| role := system; content := briefing_context R v.1 v.2 |} in
  let kept := (ms ++ [asked]) ++ [aug] in
  let reply := llm w model_id kept in
  handler R cfg w (Some t) s
  = (match failure reply with
     | None =>
         {| messages :=
              Some (kept ++ [{| role := assistant; content := concat (chunks reply) |}]);
            cache := c |}
     | Some _ => {| messages := Some kept; cache := c |}
     end,
     ChatMessage user t :: tf ++ LlmRequest model_id kept :: map StreamChunk (chunks reply),
     match failure reply with
     | None => Ok ()
     | Some e => Raise e
     end).
Proof.
  intros Ht Hb Hms asked Hf aug kept reply. unfold handler, handle_input.
  assert (truthy t = true) as -> by (by destruct t).
  rewrite Hb.
  unfold bind at 1. unfold append_message at 1. rewrite Hms.
  unfold bind at 1. unfold emit at 1.
  unfold bind at 1. unfold bind at 1. fold asked. rewrite Hf.
  unfold append_message at 1. cbn [messages cache fst snd].
  unfold bind at 1. unfold chat_completion. cbn [messages cache].
  rewrite payload_of_id. fold aug. fold kept. fold reply.
  unfold append_message. cbn [messages cache].
  destruct (failure reply); cbn [app]; rewrite ?app_nil_r; reflexivity.
Qed.

Lemma is_brief_nonempty R t : is_brief R t = true → t ≠ [].
Proof. intros H ->. vm_compute in H. discriminate. Qed.

(** C8. A call of the cached wrapper always returns a tuple and leaves an
    entry under exactly its argument pair.  After any further runs of the
    script, a second call with the same pair, whatever the settings and
    the providers then are, returns that same tuple, changes nothing and
    makes no request. *)
Theorem cache_hit_returns_stored (R : py_runtime) (cfg1 cfg2 : settings)
    (w1 w2 : world) (prof loc : pystr) (runs : list interaction) (s0 : app_state) :
  ∃ s1 t1 v,
    fetch_news_and_events cfg1 w1 prof loc s0 = (s1, t1, Ok v)
    ∧ (∀ k, k ≠ (prof, loc) → cache s1 !! k = cache s0 !! k)
    ∧ ∃ t3,
        fetch_news_and_events cfg2 w2 prof loc (session R runs s1).1
        = ((session R runs s1).1, t3, Ok v)
        ∧ network_calls t3 = [].
Proof.
  destruct (fetch_shape cfg1 w1 prof loc s0) as (c & t1 & v & shown & E & _ & Hit & Hother & _).
  eexists _, t1, v. split; [exact E |]. split; [exact Hother |].
  destruct (session_grows R runs {| messages := messages s0; cache := c |}) as [[Hc _] _].
  specialize (Hc _ _ Hit).
  exists (replay shown). split; [by apply fetch_hit | apply replay_no_network].
Qed.

(** The providers answer the first call and are all down at the second,
    which still returns the first tuple without a request.  The same
    profession with a capital letter is another key: that call does go to
    the providers. *)
Example cache_survives_provider_outage :
  let first := fetch_news_and_events sample_settings sample_world
                 (text "designer") (text "Seoul") fresh in
  let second := fetch_news_and_events sample_settings broken_world
                  (text "designer") (text "Seoul") first.1.1 in
  let other := fetch_news_and_events sample_settings broken_world
                 (text "Designer") (text "Seoul") first.1.1 in
  second = (first.1.1, [], first.2)
  ∧ first.2 = Ok ([ sample_news_item ], [])
  ∧ other.2 = Ok ([], [])
  ∧ length (network_calls other.1.2) = 2%nat.
Proof. vm_compute. done. Qed.

(** C10. A run that handles a command appends the augmentation as a
    system turn right after the user turn.  From then on the transcript
    up to and including that turn is a prefix of the transcript and of the
    payload of every model request, in this run and in every later one. *)
Theorem augmentation_is_never_dropped (R : py_runtime) (cfg : settings) (w : world)
    (t : pystr) (s : app_state) (ms : list turn) (runs : list interaction) :
  openai_api_key cfg ≠ [] → messages s = Some ms → is_brief R t = true →
  ∃ s1 t1 r v,
    script R cfg w (Some t) s = (s1, t1, r)
    ∧ let kept := (ms ++ [{| role := user; content := t |}])
                  ++ [{| role := system; content := briefing_context R v.1 v.2 |}] in
      llm_payloads t1 = [ kept ]
      ∧ (∃ rest, messages s1 = Some (kept ++ rest))
      ∧ (∃ rest, messages (session R runs s1).1 = Some (kept ++ rest))
      ∧ ∀ p, p ∈ llm_payloads (session R runs s1).2 → kept `prefix_of` p.
Proof.
  intros K Hms Hb.
  destruct (fetch_shape cfg w (profession cfg) (location cfg)
              {| messages := Some (ms ++ [{| role := user; content := t |}]);
                 cache := cache s |})
    as (c & tf & v & shown & Hf & F & _).
  cbn [messages] in Hf.
  pose proof (brief_run R cfg w t s ms c tf v (is_brief_nonempty R t Hb) Hb Hms Hf) as Hrun.
  cbv zeta in Hrun.
  rewrite (script_prelude R cfg w (Some t) s ms K Hms), Hrun.
  eexists _, _, _, v. split; [reflexivity |]. cbv zeta.
  set (kept := (ms ++ [{| role := user; content := t |}])
               ++ [{| role := system; content := briefing_context R v.1 v.2 |}]) in *.
  set (reply := llm w model_id kept) in *.
  assert (∃ rest,
             messages
               (match failure reply with
                | Some _ => {| messages := Some kept; cache := c |}
                | None =>
                    {| messages :=
                         Some (kept ++ [{| role := assistant;
                                           content := concat (chunks reply) |}]);
                       cache := c |}
                end) = Some (kept ++ rest)) as [rest Hrest].
  { destruct (failure reply); eexists; simpl; [by rewrite app_nil_r | done]. }
  split; [| split; [by exists rest | split]].
  - rewrite llm_payloads_app. destruct (display_silent ms) as [-> _].
    cbn [llm_payloads app]. rewrite llm_payloads_app.
    destruct (fetch_events_silent tf F) as [-> _].
    cbn [llm_payloads app]. by rewrite chunks_no_payload.
  - destruct (session_grows R runs
                (match failure reply with
                 | Some _ => {| messages := Some kept; cache := c |}
                 | None =>
                     {| messages :=
                          Some (kept ++ [{| role := assistant;
                                            content := concat (chunks reply) |}]);
                        cache := c |}
                 end)) as [[_ Hm] _].
    destruct (Hm _ Hrest) as [more Hmore]. exists (rest ++ more).
    by rewrite app_assoc.
  - intros p Hp.
    destruct (session_grows R runs
                (match failure reply with
                 | Some _ => {| messages := Some kept; cache := c |}
                 | None =>
                     {| messages :=
                          Some (kept ++ [{| role := assistant;
                                            content := concat (chunks reply) |}]);
                        cache := c |}
                 end)) as [_ Hp'].
    eapply prefix_app_l, Hp'; done.
Qed.

Lemma augmentation_is_never_dropped_witness :
  ∃ s1 t1 r v,
    script sample_runtime sample_settings sample_world (Some (text "/brief")) sample_session
    = (s1, t1, r)
    ∧ let kept := ([ sample_base ] ++ [{| role := user; content := text "/brief" |}])
                  ++ [{| role := system;
                         content := briefing_context sample_runtime v.1 v.2 |}] in
      llm_payloads t1 = [ kept ]
      ∧ (∃ rest, messages s1 = Some (kept ++ rest))
      ∧ (∃ rest, messages (session sample_runtime sample_followups s1).1
                 = Some (kept ++ rest))
      ∧ ∀ p, p ∈ llm_payloads (session sample_runtime sample_followups s1).2 →
             kept `prefix_of` p.
Proof.
  apply (augmentation_is_never_dropped sample_runtime sample_settings sample_world
           (text "/brief") sample_session [ sample_base ] sample_followups);
    [discriminate | reflexivity | reflexivity].
Defined.

Lemma first_load R cfg w c :
  openai_api_key cfg ≠ [] →
  script R cfg w None {| messages := None; cache := c |}
  = ({| messages := Some [{| role := system; content := build_system_prompt cfg w |}];
        cache := c |}, [], Ok ()).
Proof.
  intros K. unfold script.
  assert (truthy (openai_api_key cfg) = true) as -> by (by destruct (openai_api_key cfg)).
  reflexivity.
Qed.

Lemma briefing_of_one_item R n :
  briefing_context R [ n ] []
  = (text "You gathered the following data:" ++ nl ++ nl)
    ++ ((text "Recent news headlines:" ++ nl)
        ++ (text "- " ++ field_text R (News.title n) ++ text " ("
            ++ field_text R (News.source n) ++ text ")") ++ nl ++ nl)
    ++ text "Please craft a Korean daily briefing in bullet points (max 120 words), then suggest next actions.".
Proof.
  rewrite <- briefing_intro_text, <- news_header_text, <- briefing_instruction_text.
  reflexivity.
Qed.

(** The scenario on the code's own terms. *)
Lemma brief_scenario_run R cfg w0 w c0 n :
  openai_api_key cfg ≠ [] →
  let base := {| role := system; content := build_system_prompt cfg w0 |} in
  let asked := {| role := user; content := text "/brief" |} in
  let aug := {| role := system; content := briefing_context R [ n ] [] |} in
  let reply := llm w model_id [ base; asked; aug ] in
  (fetch_news_and_events cfg w (profession cfg) (location cfg)
     {| messages := Some [ base; asked ]; cache := c0 |}).2 = Ok ([ n ], []) →
  failure reply = None →
  let final := session R (load_then_brief cfg w0 w) {| messages := None; cache := c0 |} in
  messages final.1
  = Some [ base; asked; aug;
           {| role := assistant; content := concat (chunks reply) |} ]
  ∧ streamed final.2 = chunks reply
  ∧ llm_payloads final.2 = [ [ base; asked; aug ] ].
Proof.
  intros K base asked aug reply Hfetch Hok final.
  assert (is_brief R (text "/brief") = true) as Hb by (vm_compute; reflexivity).
  destruct (fetch_shape cfg w (profession cfg) (location cfg)
              {| messages := Some [ base; asked ]; cache := c0 |})
    as (c & tf & v & shown & Hf & F & _).
  rewrite Hf in Hfetch. cbn [snd] in Hfetch. injection Hfetch as ->.
  cbn [messages] in Hf.
  pose proof (brief_run R cfg w (text "/brief")
                {| messages := Some [ base ]; cache := c0 |} [ base ] c tf ([ n ], [])
                (is_brief_nonempty R _ Hb) Hb eq_refl Hf) as Hrun.
  cbv zeta in Hrun. cbn [fst snd] in Hrun. fold aug in Hrun.
  change (([ base ] ++ [{| role := user; content := text "/brief" |}]) ++ [ aug ])
    with [ base; asked; aug ] in Hrun.
  fold reply in Hrun. rewrite Hok in Hrun.
  assert (final
          = ({| messages := Some ([ base; asked; aug ]
                                  ++ [{| role := assistant;
                                         content := concat (chunks reply) |}]);
                cache := c |},
             [] ++ (display [ base ]
                    ++ ChatMessage user (text "/brief")
                       :: tf ++ LlmRequest model_id [ base; asked; aug ]
                          :: map StreamChunk (chunks reply)) ++ [])) as ->.
  { unfold final, load_then_brief. cbn [session at_settings at_world submitted].
    rewrite (first_load R cfg w0 c0 K). cbn iota beta. fold base.
    rewrite (script_prelude R cfg w (Some (text "/brief"))
               {| messages := Some [ base ]; cache := c0 |} [ base ] K eq_refl).
    rewrite Hrun. reflexivity. }
  destruct (fetch_events_silent tf F) as [Hno Hquiet].
  cbn [fst snd messages app].
  split; [reflexivity |].
  split.
  { rewrite app_nil_r. change (display [ base ]) with (@nil event). cbn [app streamed].
    rewrite streamed_app, Hquiet. cbn [app streamed]. apply streamed_chunks. }
  rewrite app_nil_r. change (display [ base ]) with (@nil event). cbn [app llm_payloads].
  rewrite llm_payloads_app, Hno. cbn [app llm_payloads]. by rewrite chunks_no_payload.
Qed.

(** C1, as the code has it. A session with a profession and a location:
    the page loads, then the user submits [/brief]; the fetch gives one
    article and no event, and the model call and its stream complete
    without raising.  The transcript is then four turns: the base system
    turn, the user turn [/brief], a system turn whose text is the
    introduction, the header [Recent news headlines:] with the line of that
    article (its title, then its source in brackets), and the closing
    instruction, with no events section and no marker, and the assistant
    turn holding the streamed fragments joined. *)
Theorem brief_end_to_end (R : py_runtime) (cfg : settings) (w0 w : world)
    (c0 : gmap (pystr * pystr) (fetched * list (pystr * exn))) (n : News.item) :
  openai_api_key cfg ≠ [] → profession cfg ≠ [] → location cfg ≠ [] →
  let base := {| role := system; content := build_system_prompt cfg w0 |} in
  let asked := {| role := user; content := text "/brief" |} in
  let aug :=
    {| role := system;
       content :=
         (text "You gathered the following data:" ++ nl ++ nl)
         ++ ((text "Recent news headlines:" ++ nl)
             ++ (text "- " ++ field_text R (News.title n) ++ text " ("
                 ++ field_text R (News.source n) ++ text ")") ++ nl ++ nl)
         ++ text "Please craft a Korean daily briefing in bullet points (max 120 words), then suggest next actions." |} in
  let reply := llm w model_id [ base; asked; aug ] in
  (fetch_news_and_events cfg w (profession cfg) (location cfg)
     {| messages := Some [ base; asked ]; cache := c0 |}).2 = Ok ([ n ], []) →
  failure reply = None →
  let final := session R (load_then_brief cfg w0 w) {| messages := None; cache := c0 |} in
  messages final.1
  = Some [ base; asked; aug;
           {| role := assistant; content := concat (chunks reply) |} ]
  ∧ length <$> messages final.1 = Some 4%nat
  ∧ streamed final.2 = chunks reply
  ∧ llm_payloads final.2 = [ [ base; asked; aug ] ]
  ∧ contains (content aug)
      (text "- " ++ field_text R (News.title n) ++ text " ("
       ++ field_text R (News.source n) ++ text ")")
  ∧ (∀ ttl src, News.title n = PyStr ttl → News.source n = PyStr src →
       contains (content aug) (text "- " ++ ttl ++ text " (" ++ src ++ text ")"))
  ∧ content aug = briefing_context R [ n ] []
  ∧ events_section R [] = []
  ∧ marker_section [ n ] [] = [].
Proof.
  intros K _ _ base asked aug reply Hfetch Hok final.
  assert (contains (content aug)
            (text "- " ++ field_text R (News.title n) ++ text " ("
             ++ field_text R (News.source n) ++ text ")")) as Hline.
  { unfold aug. cbn [content]. apply contains_app_r, contains_app_l, contains_app_r.
    apply contains_app_l, contains_refl. }
  assert (∀ ttl src, News.title n = PyStr ttl → News.source n = PyStr src →
            contains (content aug) (text "- " ++ ttl ++ text " (" ++ src ++ text ")"))
    as Hmention.
  { intros ttl src Ht Hs. unfold field_text in Hline.
    rewrite Ht, Hs in Hline. exact Hline. }
  assert (content aug = briefing_context R [ n ] []) as Eaug.
  { unfold aug. cbn [content]. symmetry. apply briefing_of_one_item. }
  revert Hline Hmention Eaug. subst final reply aug. cbn [content].
  rewrite <- (briefing_of_one_item R n) in *.
  intros Hline Hmention _.
  destruct (brief_scenario_run R cfg w0 w c0 n K Hfetch Hok) as (Hmsg & Hstream & Hpay).
  split; [exact Hmsg |]. split; [by rewrite Hmsg |].
  split; [exact Hstream |]. split; [exact Hpay |].
  split; [exact Hline |]. split; [exact Hmention |].
  split; [reflexivity | split; reflexivity].
Qed.

Lemma brief_end_to_end_witness :
  messages (session sample_runtime
              (load_then_brief sample_settings sample_world sample_world) fresh).1
  = Some [ sample_base;
           {| role := user; content := text "/brief" |};
           {| role := system;
              content :=
                text "You gathered the following data:" ++ nl ++ nl
                ++ text "Recent news headlines:" ++ nl
                ++ text "- A (S)" ++ nl ++ nl
                ++ text "Please craft a Korean daily briefing in bullet points (max 120 words), then suggest next actions." |};
           {| role := assistant; content := text "Hello" |} ]
  ∧ contains (briefing_context sample_runtime [ sample_news_item ] []) (text "- A (S)").
Proof.
  destruct (brief_end_to_end sample_runtime sample_settings sample_world sample_world
              ∅ sample_news_item
              ltac:(discriminate) ltac:(discriminate) ltac:(discriminate)
              ltac:(vm_compute; reflexivity) ltac:(reflexivity))
    as (Hmsg & _ & _ & _ & _ & Hmention & Hsame & _).
  split.
  - refine (eq_trans Hmsg _). vm_compute. reflexivity.
  - rewrite <- Hsame. apply (Hmention (text "A") (text "S")); reflexivity.
Defined.

(** C1 fails when the stream breaks: the same session, the same article
    and no event, but a model whose stream raises after one fragment.  The
    run ends with the exception and the transcript has three turns, the
    last one the augmentation; no assistant turn is stored. *)
Lemma interrupted_brief_leaves_three_turns :
  (fetch_news_and_events sample_settings interrupted_world
     (profession sample_settings) (location sample_settings)
     {| messages := Some [ sample_base; {| role := user; content := text "/brief" |} ];
        cache := ∅ |}).2
  = Ok ([ sample_news_item ], [])
  ∧ messages (session sample_runtime
                (load_then_brief sample_settings sample_world interrupted_world) fresh).1
    = Some [ sample_base;
             {| role := user; content := text "/brief" |};
             {| role := system;
                content := briefing_context sample_runtime [ sample_news_item ] [] |} ]
  ∧ streamed (session sample_runtime
                (load_then_brief sample_settings sample_world interrupted_world) fresh).2
    = [ text "Hel" ].
Proof. vm_compute. done. Qed.

(** The scenario by evaluation: the four turns, with the augmentation
    written out, and no events header in it. *)
Example brief_scenario_transcript :
  let final := session sample_runtime
                 (load_then_brief sample_settings sample_world sample_world) fresh in
  let augmentation :=
    text "You gathered the following data:" ++ nl ++ nl
    ++ text "Recent news headlines:" ++ nl
    ++ text "- A (S)" ++ nl ++ nl
    ++ text "Please craft a Korean daily briefing in bullet points (max 120 words), then suggest next actions." in
  messages final.1
  = Some [ sample_base;
           {| role := user; content := text "/brief" |};
           {| role := system; content := augmentation |};
           {| role := assistant; content := text "Hello" |} ]
  ∧ containsb augmentation (text "Upcoming events") = false.
Proof. vm_compute. done. Qed.

(** * Further properties of the script *)

(** ** Start of a run *)

Lemma script_without_key R cfg w inp s :
  openai_api_key cfg = [] →
  script R cfg w inp s = (s, [ErrorBox missing_key_error], Raise StopException).
Proof. intros H. unfold script. by rewrite H. Qed.

Lemma script_first_run R cfg w inp s :
  openai_api_key cfg ≠ [] → messages s = None →
  script R cfg w inp s
  = (let '(s1, t1, r) :=
       handler R cfg w inp {| messages := Some [ base_turn cfg w ]; cache := cache s |} in
     (s1, t1, r)).
Proof.
  intros K Hms. unfold script.
  assert (truthy (openai_api_key cfg) = true) as -> by (by destruct (openai_api_key cfg)).
  cbn [negb]. unfold bind at 1 2 3. unfold ret at 1, init_session, display_messages.
  rewrite Hms. cbn iota beta. cbn [messages app display chat_role_eqb role].
  unfold base_turn.
  destruct (handler R cfg w inp _) as [[s1 t1] r]. reflexivity.
Qed.

(** X1. Without the model credential a run shows the error box and stops:
    it creates no transcript, changes nothing and asks nothing of any
    provider or of the model, whatever was submitted.  A whole series of
    such runs leaves the state as it was. *)
Theorem missing_key_halts (R : py_runtime) (runs : list interaction) (s : app_state) :
  Forall (λ r, openai_api_key (at_settings r) = []) runs →
  session R runs s = (s, map (λ _, ErrorBox missing_key_error) runs).
Proof.
  induction 1 as [|r runs Hr _ IH]; simpl; [done |].
  by rewrite (script_without_key R _ _ _ s Hr), IH.
Qed.

Lemma missing_key_halts_witness :
  session sample_runtime
    [ {| at_settings := keyless_settings; at_world := sample_world;
         submitted := Some (text "/brief") |};
      {| at_settings := keyless_settings; at_world := sample_world;
         submitted := Some (text "hello") |} ] fresh
  = (fresh, [ ErrorBox missing_key_error; ErrorBox missing_key_error ]).
Proof.
  apply (missing_key_halts sample_runtime
           [ {| at_settings := keyless_settings; at_world := sample_world;
                submitted := Some (text "/brief") |};
             {| at_settings := keyless_settings; at_world := sample_world;
                submitted := Some (text "hello") |} ] fresh).
  repeat constructor.
Defined.

(** X2. Runs only ever add to the state: whatever is submitted and whatever
    the settings and the environment are, the transcript a series of runs
    starts from is a prefix of the transcript it ends with, and every cache
    entry it starts with is still there with the same content. *)
Theorem state_is_append_only (R : py_runtime) (runs : list interaction)
    (s : app_state) (ms : list turn) :
  messages s = Some ms →
  (∃ more, messages (session R runs s).1 = Some (ms ++ more))
  ∧ ∀ k e, cache s !! k = Some e → cache (session R runs s).1 !! k = Some e.
Proof.
  intros Hms. destruct (session_grows R runs s) as [[Hc Hm] _]. split; auto.
Qed.

Lemma state_is_append_only_witness :
  ∃ more, messages (session sample_runtime sample_followups sample_session).1
          = Some ([ sample_base ] ++ more).
Proof.
  exact (proj1 (state_is_append_only sample_runtime sample_followups sample_session
                  [ sample_base ] eq_refl)).
Defined.

(** X3. A session that starts with no transcript either still has none
    (no run had the credential) or has one that begins with the base
    system turn built by one of its runs, from the settings and the date of
    that run; later changes of the settings never rebuild it, and every
    model request carries it first. *)
Theorem transcript_begins_with_base (R : py_runtime) (runs : list interaction)
    (s : app_state) :
  messages s = None →
  (messages (session R runs s).1 = None ∧ llm_payloads (session R runs s).2 = [])
  ∨ ∃ r rest,
      r ∈ runs
      ∧ messages (session R runs s).1
        = Some (base_turn (at_settings r) (at_world r) :: rest)
      ∧ ∀ p, p ∈ llm_payloads (session R runs s).2 →
             ∃ q, p = base_turn (at_settings r) (at_world r) :: q.
Proof.
  revert s. induction runs as [|r runs IH]; intros s Hms; [by left |].
  cbn [session].
  destruct (decide (openai_api_key (at_settings r) = [])) as [K | K].
  - rewrite (script_without_key R _ _ _ s K).
    destruct (session R runs s) as [s2 t2] eqn:E. cbn [fst snd app llm_payloads].
    specialize (IH s Hms). rewrite E in IH. cbn [fst snd] in IH.
    destruct IH as [IH | (r' & rest & Hin & Hm & Hp)]; [by left | right].
    exists r', rest. split; [by apply elem_of_cons; right | done].
  - right. exists r.
    rewrite (script_first_run R _ _ _ s K Hms).
    pose proof (grows_handler R (at_settings r) (at_world r) (submitted r)
                  {| messages := Some [ base_turn (at_settings r) (at_world r) ];
                     cache := cache s |}) as [[_ M1] P1].
    destruct (handler R (at_settings r) (at_world r) (submitted r) _) as [[s1 t1] r1].
    cbn [fst snd] in *.
    destruct (M1 _ eq_refl) as [more1 Hm1].
    pose proof (session_grows R runs s1) as [[_ M2] P2].
    destruct (session R runs s1) as [s2 t2]. cbn [fst snd] in *.
    destruct (M2 _ Hm1) as [more2 Hm2].
    exists (more1 ++ more2). split; [by apply elem_of_cons; left |]. split.
    + rewrite Hm2. by rewrite <- app_assoc.
    + intros p Hp. rewrite llm_payloads_app in Hp.
      apply elem_of_app in Hp as [Hp | Hp].
      * destruct (P1 _ eq_refl p Hp) as [q ->]. by eexists.
      * destruct (P2 _ Hm1 p Hp) as [q ->]. exists (more1 ++ q).
        by rewrite <- app_assoc.
Qed.

Lemma transcript_begins_with_base_witness :
  (messages (session sample_runtime
               (load_then_brief sample_settings sample_world broken_world) fresh).1 = None
   ∧ llm_payloads (session sample_runtime
                     (load_then_brief sample_settings sample_world broken_world) fresh).2
     = [])
  ∨ ∃ r rest,
      r ∈ load_then_brief sample_settings sample_world broken_world
      ∧ messages (session sample_runtime
                    (load_then_brief sample_settings sample_world broken_world) fresh).1
        = Some (base_turn (at_settings r) (at_world r) :: rest)
      ∧ ∀ p, p ∈ llm_payloads
                   (session sample_runtime
                      (load_then_brief sample_settings sample_world broken_world) fresh).2 →
             ∃ q, p = base_turn (at_settings r) (at_world r) :: q.
Proof.
  apply (transcript_begins_with_base sample_runtime
           (load_then_brief sample_settings sample_world broken_world) fresh).
  reflexivity.
Defined.

(** ** A handled text *)

Lemma http_requests_app t1 t2 :
  http_requests (t1 ++ t2) = http_requests t1 ++ http_requests t2.
Proof.
  induction t1 as [|ev t1 IH]; simpl; [done |]. destruct ev; simpl; by rewrite ?IH.
Qed.

Lemma display_no_request ms : http_requests (display ms) = [].
Proof.
  induction ms as [|m ms IH]; simpl; [done |].
  destruct (chat_role_eqb (role m) system); simpl; done.
Qed.

Lemma chunks_no_request fs : http_requests (map StreamChunk fs) = [].
Proof. induction fs as [|f fs IH]; simpl; done. Qed.

Lemma replay_no_request shown : http_requests (replay shown) = [].
Proof. induction shown as [|[m e] shown IH]; simpl; done. Qed.

(** Either way a non-empty text goes: the user turn, at most one system
    turn after it, one model request with all of that, and the assistant
    turn when the model call returns. *)
Lemma handled_input R cfg w t s ms :
  t ≠ [] → messages s = Some ms →
  ∃ extra c tf,
    forallb is_fetch_event tf = true
    ∧ Forall (λ m, role m = system) extra
    ∧ (length extra ≤ 1)%nat
    ∧ (is_brief R t = false → extra = [] ∧ tf = [] ∧ c = cache s)
    ∧ (is_brief R t = true →
       ∃ v,
         extra = [{| role := system; content := briefing_context R v.1 v.2 |}]
         ∧ fetch_news_and_events cfg w (profession cfg) (location cfg)
             {| messages := Some (ms ++ [{| role := user; content := t |}]);
                cache := cache s |}
           = ({| messages := Some (ms ++ [{| role := user; content := t |}]);
                 cache := c |}, tf, Ok v))
    ∧ handler R cfg w (Some t) s
      = (match failure (llm w model_id (ms ++ {| role := user; content := t |} :: extra)) with
         | None =>
             {| messages :=
                  Some ((ms ++ {| role := user; content := t |} :: extra)
                        ++ [{| role := assistant;
                               content :=
                                 concat (chunks (llm w model_id
                                           (ms ++ {| role := user; content := t |}
                                               :: extra))) |}]);
                cache := c |}
         | Some _ =>
             {| messages := Some (ms ++ {| role := user; content := t |} :: extra);
                cache := c |}
         end,
         ChatMessage user t
           :: tf ++ LlmRequest model_id (ms ++ {| role := user; content := t |} :: extra)
              :: map StreamChunk
                   (chunks (llm w model_id (ms ++ {| role := user; content := t |} :: extra))),
         match failure (llm w model_id (ms ++ {| role := user; content := t |} :: extra)) with
         | None => Ok ()
         | Some e => Raise e
         end).
Proof.
  intros Ht Hms. destruct (is_brief R t) eqn:Hb.
  - destruct (fetch_shape cfg w (profession cfg) (location cfg)
                {| messages := Some (ms ++ [{| role := user; content := t |}]);
                   cache := cache s |})
      as (c & tf & v & shown & Hf & F & _).
    cbn [messages] in Hf.
    exists [{| role := system; content := briefing_context R v.1 v.2 |}], c, tf.
    split; [done |]. split; [by repeat constructor |]. split; [done |].
    split; [done |]. split; [intros _; by exists v |].
    rewrite (brief_run R cfg w t s ms c tf v Ht Hb Hms Hf).
    rewrite <- !app_assoc. reflexivity.
  - exists [], (cache s), [].
    split; [done |]. split; [done |]. split; [simpl; lia |].
    split; [done |]. split; [done |].
    rewrite (plain_chat_run R cfg w t s ms Ht Hb Hms). reflexivity.
Qed.

Lemma augmentation_turns_shape R cfg w t s ms :
  Forall (λ m, role m = system) (augmentation_turns R cfg w t s ms)
  ∧ length (augmentation_turns R cfg w t s ms) = (if is_brief R t then 1 else 0)%nat.
Proof.
  unfold augmentation_turns. destruct (is_brief R t); [| done].
  destruct (fetch_shape cfg w (profession cfg) (location cfg)
              {| messages := Some (ms ++ [{| role := user; content := t |}]);
                 cache := cache s |}) as (c & tf & v & shown & -> & _).
  cbn [snd]. split; [by repeat constructor | done].
Qed.

(** The outcome of a non-empty text, in terms of the payload it sends. *)
Lemma handler_outcome R cfg w t s ms :
  t ≠ [] → messages s = Some ms →
  ∃ c tf,
    forallb is_fetch_event tf = true
    ∧ handler R cfg w (Some t) s
      = (match failure (llm w model_id (sent_payload R cfg w t s ms)) with
         | None =>
             {| messages :=
                  Some (sent_payload R cfg w t s ms
                        ++ [{| role := assistant;
                               content :=
                                 concat (chunks (llm w model_id
                                                   (sent_payload R cfg w t s ms))) |}]);
                cache := c |}
         | Some _ => {| messages := Some (sent_payload R cfg w t s ms); cache := c |}
         end,
         ChatMessage user t
           :: tf ++ LlmRequest model_id (sent_payload R cfg w t s ms)
              :: map StreamChunk (chunks (llm w model_id (sent_payload R cfg w t s ms))),
         match failure (llm w model_id (sent_payload R cfg w t s ms)) with
         | None => Ok ()
         | Some e => Raise e
         end).
Proof.
  intros Ht Hms.
  destruct (handled_input R cfg w t s ms Ht Hms)
    as (extra & c & tf & F & _ & _ & Hplain & Hbrief & Hrun).
  assert (augmentation_turns R cfg w t s ms = extra) as Hextra.
  { unfold augmentation_turns. destruct (is_brief R t).
    - destruct (Hbrief eq_refl) as (v & -> & ->). reflexivity.
    - by destruct (Hplain eq_refl) as (-> & _). }
  exists c, tf. split; [done |]. unfold sent_payload. rewrite Hextra. exact Hrun.
Qed.

Lemma script_streamed R cfg w t s ms tf fs :
  forallb is_fetch_event tf = true →
  streamed (display ms
            ++ ChatMessage user t
               :: tf ++ LlmRequest model_id (sent_payload R cfg w t s ms)
                  :: map StreamChunk fs) = fs
  ∧ llm_payloads (display ms
                  ++ ChatMessage user t
                     :: tf ++ LlmRequest model_id (sent_payload R cfg w t s ms)
                        :: map StreamChunk fs)
    = [ sent_payload R cfg w t s ms ].
Proof.
  intros F. destruct (fetch_events_silent tf F) as [Hno Hquiet].
  destruct (display_silent ms) as [Hd1 Hd2].
  rewrite streamed_app, llm_payloads_app, Hd1, Hd2. cbn [app streamed llm_payloads].
  rewrite streamed_app, llm_payloads_app, Hno, Hquiet. cbn [app streamed llm_payloads].
  by rewrite streamed_chunks, chunks_no_payload.
Qed.

(** X4. When the model call or its stream raises on the payload it was
    sent, the run ends with that exception and no assistant turn is stored:
    the transcript is then exactly that payload, the old transcript with
    the user turn and, for a command only, the one augmentation turn.  The
    fragments already streamed to the page are in no turn. *)
Theorem model_failure_stores_no_answer (R : py_runtime) (cfg : settings) (w : world)
    (t : pystr) (s : app_state) (ms : list turn) (e : exn) :
  openai_api_key cfg ≠ [] → messages s = Some ms → t ≠ [] →
  failure (llm w model_id (sent_payload R cfg w t s ms)) = Some e →
  ∃ s1 t1,
    script R cfg w (Some t) s = (s1, t1, Raise e)
    ∧ messages s1
      = Some (ms ++ {| role := user; content := t |} :: augmentation_turns R cfg w t s ms)
    ∧ Forall (λ m, role m = system) (augmentation_turns R cfg w t s ms)
    ∧ length (augmentation_turns R cfg w t s ms) = (if is_brief R t then 1 else 0)%nat
    ∧ llm_payloads t1 = [ sent_payload R cfg w t s ms ]
    ∧ streamed t1 = chunks (llm w model_id (sent_payload R cfg w t s ms)).
Proof.
  intros K Hms Ht Hfail.
  destruct (handler_outcome R cfg w t s ms Ht Hms) as (c & tf & F & Hrun).
  rewrite (script_prelude R cfg w (Some t) s ms K Hms), Hrun, Hfail.
  destruct (augmentation_turns_shape R cfg w t s ms) as [Hsys Hlen].
  destruct (script_streamed R cfg w t s ms tf
              (chunks (llm w model_id (sent_payload R cfg w t s ms))) F)
    as (Hstream & Hpay).
  eexists _, _. split; [reflexivity |]. split; [reflexivity |].
  split; [done |]. split; [done |]. split; [exact Hpay | exact Hstream].
Qed.

Lemma model_failure_stores_no_answer_witness :
  ∃ s1 t1,
    script sample_runtime sample_settings picky_world (Some (text "/brief")) sample_session
    = (s1, t1, Raise (APIError (text "reset")))
    ∧ messages s1
      = Some ([ sample_base ] ++ {| role := user; content := text "/brief" |}
                :: augmentation_turns sample_runtime sample_settings picky_world
                     (text "/brief") sample_session [ sample_base ])
    ∧ length (augmentation_turns sample_runtime sample_settings picky_world
                (text "/brief") sample_session [ sample_base ]) = 1%nat
    ∧ streamed t1 = [ text "Hel" ].
Proof.
  destruct (model_failure_stores_no_answer sample_runtime sample_settings picky_world
              (text "/brief") sample_session [ sample_base ] (APIError (text "reset"))
              ltac:(discriminate) eq_refl ltac:(discriminate)
              ltac:(vm_compute; reflexivity))
    as (s1 & t1 & Hrun & Hmsg & _ & Hlen & _ & Hstream).
  exists s1, t1. split; [exact Hrun |]. split; [exact Hmsg |].
  split; [exact Hlen |]. rewrite Hstream. vm_compute. reflexivity.
Defined.

(** X5. When the model call returns on the payload it was sent, the run
    ends normally and the transcript gains, in this order, the user turn,
    the augmentation as one system turn when the text is a command and
    none otherwise, and one assistant turn whose text is the streamed
    fragments joined in the order they were shown: the empty text when
    nothing was streamed. *)
Theorem completed_run_stores_the_stream (R : py_runtime) (cfg : settings) (w : world)
    (t : pystr) (s : app_state) (ms : list turn) :
  openai_api_key cfg ≠ [] → messages s = Some ms → t ≠ [] →
  failure (llm w model_id (sent_payload R cfg w t s ms)) = None →
  ∃ s1 t1,
    script R cfg w (Some t) s = (s1, t1, Ok ())
    ∧ messages s1
      = Some (ms ++ {| role := user; content := t |}
                 :: augmentation_turns R cfg w t s ms
                 ++ [{| role := assistant; content := concat (streamed t1) |}])
    ∧ Forall (λ m, role m = system) (augmentation_turns R cfg w t s ms)
    ∧ length (augmentation_turns R cfg w t s ms) = (if is_brief R t then 1 else 0)%nat
    ∧ llm_payloads t1 = [ sent_payload R cfg w t s ms ]
    ∧ streamed t1 = chunks (llm w model_id (sent_payload R cfg w t s ms))
    ∧ (streamed t1 = [] →
       messages s1
       = Some (ms ++ {| role := user; content := t |}
                  :: augmentation_turns R cfg w t s ms
                  ++ [{| role := assistant; content := [] |}])).
Proof.
  intros K Hms Ht Hok.
  destruct (handler_outcome R cfg w t s ms Ht Hms) as (c & tf & F & Hrun).
  rewrite (script_prelude R cfg w (Some t) s ms K Hms), Hrun, Hok.
  destruct (augmentation_turns_shape R cfg w t s ms) as [Hsys Hlen].
  destruct (script_streamed R cfg w t s ms tf
              (chunks (llm w model_id (sent_payload R cfg w t s ms))) F)
    as (Hstream & Hpay).
  eexists _, _. split; [reflexivity |]. rewrite Hstream. cbn [messages].
  unfold sent_payload.
  split; [by rewrite <- app_assoc |]. split; [done |]. split; [done |].
  split; [exact Hpay |]. split; [reflexivity |].
  intros ->. by rewrite <- app_assoc.
Qed.

Lemma completed_run_stores_the_stream_witness :
  ∃ s1 t1,
    script sample_runtime sample_settings picky_world (Some (text "hello")) sample_session
    = (s1, t1, Ok ())
    ∧ messages s1
      = Some ([ sample_base ] ++ {| role := user; content := text "hello" |}
                 :: augmentation_turns sample_runtime sample_settings picky_world
                      (text "hello") sample_session [ sample_base ]
                 ++ [{| role := assistant; content := concat (streamed t1) |}])
    ∧ length (augmentation_turns sample_runtime sample_settings picky_world
                (text "hello") sample_session [ sample_base ]) = 0%nat
    ∧ streamed t1 = [ text "Hel"; text "lo" ].
Proof.
  destruct (completed_run_stores_the_stream sample_runtime sample_settings picky_world
              (text "hello") sample_session [ sample_base ]
              ltac:(discriminate) eq_refl ltac:(discriminate)
              ltac:(vm_compute; reflexivity))
    as (s1 & t1 & Hrun & Hmsg & _ & Hlen & _ & Hstream & _).
  exists s1, t1. split; [exact Hrun |]. split; [exact Hmsg |].
  split; [exact Hlen |]. rewrite Hstream. vm_compute. reflexivity.
Defined.

Lemma handler_payloads R cfg w inp s ms :
  messages s = Some ms →
  (inp = None ∨ inp = Some [] → llm_payloads (handler R cfg w inp s).1.2 = [])
  ∧ (∀ t, inp = Some t → t ≠ [] →
       length (llm_payloads (handler R cfg w inp s).1.2) = 1%nat).
Proof.
  intros Hms. split.
  - intros [-> | ->]; reflexivity.
  - intros t -> Ht.
    destruct (handled_input R cfg w t s ms Ht Hms) as (extra & c & tf & F & _ & _ & _ & _ & ->).
    cbn [fst snd llm_payloads]. rewrite llm_payloads_app.
    destruct (fetch_events_silent tf F) as [-> _].
    cbn [app llm_payloads]. by rewrite chunks_no_payload.
Qed.

(** X6. A run sends at most one request to the model.  It sends none when
    nothing or the empty text was submitted or when the credential is
    missing, and exactly one for every non-empty text, the first run of a
    session included. *)
Theorem one_model_request_per_run (R : py_runtime) (cfg : settings) (w : world)
    (inp : option pystr) (s : app_state) :
  (length (llm_payloads (script R cfg w inp s).1.2) ≤ 1)%nat
  ∧ (inp = None ∨ inp = Some [] ∨ openai_api_key cfg = [] →
     llm_payloads (script R cfg w inp s).1.2 = [])
  ∧ (openai_api_key cfg ≠ [] → ∀ t, inp = Some t → t ≠ [] →
     length (llm_payloads (script R cfg w inp s).1.2) = 1%nat).
Proof.
  assert (∀ s' ms, messages s' = Some ms →
            (inp = None ∨ inp = Some [] → llm_payloads (handler R cfg w inp s').1.2 = [])
            ∧ (∀ t, inp = Some t → t ≠ [] →
                 length (llm_payloads (handler R cfg w inp s').1.2) = 1%nat)) as H
    by (intros; by eapply handler_payloads).
  assert (openai_api_key cfg ≠ [] →
          ∃ s' ms, messages s' = Some ms
                   ∧ llm_payloads (script R cfg w inp s).1.2
                     = llm_payloads (handler R cfg w inp s').1.2) as Hscript.
  { intros K. destruct (messages s) as [ms |] eqn:Hms.
    - exists s, ms. split; [done |]. rewrite (script_prelude R cfg w inp s ms K Hms).
      destruct (handler R cfg w inp s) as [[s1 t1] r]. cbn [fst snd].
      rewrite llm_payloads_app. by destruct (display_silent ms) as [-> _].
    - exists {| messages := Some [ base_turn cfg w ]; cache := cache s |},
             [ base_turn cfg w ].
      split; [done |]. rewrite (script_first_run R cfg w inp s K Hms).
      by destruct (handler R cfg w inp _) as [[s1 t1] r]. }
  destruct (decide (openai_api_key cfg = [])) as [K | K].
  - rewrite (script_without_key R cfg w inp s K). cbn. split; [lia |]. split; done.
  - destruct (Hscript K) as (s' & ms & Hms & ->). destruct (H s' ms Hms) as [Hnone Hone].
    split; [| split].
    + destruct inp as [[|c t] |].
      * rewrite Hnone by auto. simpl. lia.
      * rewrite (Hone (c :: t)) by done. lia.
      * rewrite Hnone by auto. simpl. lia.
    + intros [-> | [-> | ?]]; [by apply Hnone; left | by apply Hnone; right | done].
    + intros _ t -> Ht. exact (Hone t eq_refl Ht).
Qed.

Lemma one_model_request_per_run_witness :
  llm_payloads (script sample_runtime sample_settings sample_world (Some []) fresh).1.2 = []
  ∧ length (llm_payloads
              (script sample_runtime sample_settings sample_world (Some (text "/brief"))
                 fresh).1.2) = 1%nat.
Proof.
  split.
  - apply (one_model_request_per_run sample_runtime sample_settings sample_world
             (Some []) fresh). right. by left.
  - apply (one_model_request_per_run sample_runtime sample_settings sample_world
             (Some (text "/brief")) fresh) with (t := text "/brief");
      [discriminate | reflexivity | discriminate].
Defined.

(** ** Provider requests *)

Lemma query_news_requests cfg w prof s :
  http_requests (_query_news cfg w prof s).1.2
  = if truthy (news_api_key cfg) then [ news_request cfg prof ] else [].
Proof.
  destruct (decide (news_api_key cfg = [])) as [K | K].
  - unfold _query_news. by rewrite K.
  - rewrite query_news_run by done.
    assert (truthy (news_api_key cfg) = true) as -> by (by destruct (news_api_key cfg)).
    by destruct (attempt _ _).
Qed.

Lemma query_events_requests cfg w loc prof s :
  http_requests (_query_events cfg w loc prof s).1.2
  = if truthy (event_api_key cfg) && truthy loc
    then [ events_request cfg w loc prof ] else [].
Proof.
  destruct (decide (event_api_key cfg = [])) as [K | K];
    [| destruct (decide (loc = [])) as [L | L]].
  - unfold _query_events. by rewrite K.
  - unfold _query_events. rewrite L, orb_true_r. cbn [truthy]. by rewrite andb_false_r.
  - rewrite query_events_run by done.
    assert (truthy (event_api_key cfg) = true) as -> by (by destruct (event_api_key cfg)).
    assert (truthy loc = true) as -> by (by destruct loc).
    by destruct (attempt _ _).
Qed.

Lemma fetch_requests cfg w prof loc s :
  http_requests (fetch_news_and_events cfg w prof loc s).1.2
  = match cache s !! (prof, loc) with
    | Some _ => []
    | None =>
        (if truthy (news_api_key cfg) then [ news_request cfg prof ] else [])
        ++ (if truthy (event_api_key cfg) && truthy loc
            then [ events_request cfg w loc prof ] else [])
    end.
Proof.
  unfold fetch_news_and_events.
  destruct (cache s !! (prof, loc)) as [[v shown] |]; [apply replay_no_request |].
  pose proof (query_news_requests cfg w prof s) as Hn.
  pose proof (query_events_requests cfg w loc prof s) as He.
  destruct (query_news_total cfg w prof s) as (t1 & news & E1 & _).
  destruct (query_events_total cfg w loc prof s) as (t2 & events & E2 & _).
  rewrite E1 in Hn. rewrite E2 in He. cbn [fst snd] in Hn, He.
  unfold fetch_uncached, bind, ret. rewrite E1, E2. cbn [fst snd].
  by rewrite !http_requests_app, Hn, He, app_nil_r.
Qed.

Lemma query_term_present (a b : pystr) : b ≠ [] → or_else a b ≠ [].
Proof. unfold or_else. by destruct a. Qed.

(** X7. A run asks the providers only for a command whose (profession,
    location) pair is not cached yet: plain chat and cache hits send no
    provider request.  On a miss it sends one request per provider that is
    configured (the news key; the events key together with a location), news
    first.  A request never carries an empty search term. *)
Theorem provider_requests_only_on_a_miss (R : py_runtime) (cfg : settings) (w : world)
    (t : pystr) (s : app_state) (ms : list turn) :
  openai_api_key cfg ≠ [] → messages s = Some ms → t ≠ [] →
  (is_brief R t = false ∨ is_Some (cache s !! (profession cfg, location cfg)) →
   http_requests (script R cfg w (Some t) s).1.2 = [])
  ∧ (is_brief R t = true → cache s !! (profession cfg, location cfg) = None →
     http_requests (script R cfg w (Some t) s).1.2
     = (if truthy (news_api_key cfg) then [ news_request cfg (profession cfg) ] else [])
       ++ (if truthy (event_api_key cfg) && truthy (location cfg)
           then [ events_request cfg w (location cfg) (profession cfg) ] else []))
  ∧ ∀ req, req ∈ http_requests (script R cfg w (Some t) s).1.2 →
           ∃ q, param (text "q") (req_params req) = Some q ∧ q ≠ [].
Proof.
  intros K Hms Ht.
  destruct (handled_input R cfg w t s ms Ht Hms)
    as (extra & c & tf & F & _ & _ & Hplain & Hbrief & Hrun).
  assert (http_requests (script R cfg w (Some t) s).1.2 = http_requests tf) as ->.
  { rewrite (script_prelude R cfg w (Some t) s ms K Hms), Hrun. cbn [fst snd].
    rewrite http_requests_app, display_no_request. cbn [app http_requests].
    rewrite http_requests_app. cbn [http_requests]. by rewrite chunks_no_request, app_nil_r. }
  assert (is_brief R t = true →
          http_requests tf
          = match cache s !! (profession cfg, location cfg) with
            | Some _ => []
            | None =>
                (if truthy (news_api_key cfg)
                 then [ news_request cfg (profession cfg) ] else [])
                ++ (if truthy (event_api_key cfg) && truthy (location cfg)
                    then [ events_request cfg w (location cfg) (profession cfg) ] else [])
            end) as Htf.
  { intros Hb. destruct (Hbrief Hb) as (v & _ & Hf).
    pose proof (fetch_requests cfg w (profession cfg) (location cfg)
                  {| messages := Some (ms ++ [{| role := user; content := t |}]);
                     cache := cache s |}) as Hreq.
    rewrite Hf in Hreq. exact Hreq. }
  split; [| split].
  - intros [Hb | [entry Hhit]].
    + by destruct (Hplain Hb) as (_ & -> & _).
    + destruct (is_brief R t) eqn:Hb; [| by destruct (Hplain eq_refl) as (_ & -> & _)].
      rewrite (Htf eq_refl), Hhit. done.
  - intros Hb Hmiss. by rewrite (Htf Hb), Hmiss.
  - intros req Hreq.
    destruct (is_brief R t) eqn:Hb;
      [| destruct (Hplain eq_refl) as (_ & -> & _); by apply elem_of_nil in Hreq].
    rewrite (Htf eq_refl) in Hreq.
    destruct (cache s !! (profession cfg, location cfg)); [by apply elem_of_nil in Hreq |].
    apply elem_of_app in Hreq as [Hreq | Hreq].
    + destruct (truthy (news_api_key cfg)); [| by apply elem_of_nil in Hreq].
      apply list_elem_of_singleton in Hreq as ->.
      exists (or_else (profession cfg) (text "career")). split; [reflexivity |].
      apply query_term_present. vm_compute. discriminate.
    + destruct (truthy (event_api_key cfg) && truthy (location cfg));
        [| by apply elem_of_nil in Hreq].
      apply list_elem_of_singleton in Hreq as ->.
      exists (or_else (profession cfg) (text "networking")). split; [reflexivity |].
      apply query_term_present. vm_compute. discriminate.
Qed.

Lemma provider_requests_only_on_a_miss_witness :
  http_requests
    (script sample_runtime sample_settings sample_world (Some (text "hello"))
       sample_session).1.2 = []
  ∧ http_requests
      (script sample_runtime sample_settings sample_world (Some (text "/brief"))
         sample_session).1.2
    = [ news_request sample_settings (text "UI/UX Designer");
        events_request sample_settings sample_world (text "Seoul") (text "UI/UX Designer") ].
Proof.
  split.
  - apply (provider_requests_only_on_a_miss sample_runtime sample_settings sample_world
             (text "hello") sample_session [ sample_base ]);
      [discriminate | reflexivity | discriminate | left; reflexivity].
  - apply (provider_requests_only_on_a_miss sample_runtime sample_settings sample_world
             (text "/brief") sample_session [ sample_base ]);
      [discriminate | reflexivity | discriminate | reflexivity | reflexivity].
Defined.

(** ** What the cache keeps *)

Lemma shown_warnings_app t1 t2 :
  shown_warnings (t1 ++ t2) = shown_warnings t1 ++ shown_warnings t2.
Proof.
  induction t1 as [|ev t1 IH]; simpl; [done |]. destruct ev; simpl; by rewrite ?IH.
Qed.

Lemma replay_member shown m e : (m, e) ∈ shown → Warning m e ∈ replay shown.
Proof.
  intros H. unfold replay. apply list_elem_of_fmap. by exists (m, e).
Qed.

(** X8. A degraded result is cached like any other.  When the news
    provider fails on the first call for a pair, the empty news list is
    stored; every later call for that pair, whatever the settings and
    however healthy the providers then are, returns the same empty list,
    sends no request and shows the stored warning again. *)
Theorem degraded_result_is_cached (cfg1 : settings) (w1 : world) (prof loc : pystr)
    (s0 : app_state) (e : exn) :
  cache s0 !! (prof, loc) = None → news_api_key cfg1 ≠ [] →
  provider_failed news_items_of (http w1 (news_request cfg1 prof)) e →
  ∃ s1 t1 events,
    fetch_news_and_events cfg1 w1 prof loc s0 = (s1, t1, Ok ([], events))
    ∧ ∀ R runs cfg2 w2, ∃ t2,
        fetch_news_and_events cfg2 w2 prof loc (session R runs s1).1
        = ((session R runs s1).1, t2, Ok ([], events))
        ∧ Warning news_warning e ∈ t2
        ∧ http_requests t2 = [].
Proof.
  intros Hmiss K F.
  destruct (query_events_total cfg1 w1 loc prof s0) as (te & events & Ee & _).
  assert (fetch_uncached cfg1 w1 prof loc s0
          = (s0,
             [ HttpGet (news_request cfg1 prof); Warning news_warning e ] ++ te ++ [],
             Ok ([], events))) as Hbody.
  { unfold fetch_uncached, bind, ret.
    rewrite (query_news_run cfg1 w1 prof s0 K), (provider_failed_attempt _ _ _ F), Ee.
    reflexivity. }
  eexists _, _, events. split.
  - unfold fetch_news_and_events. rewrite Hmiss, Hbody. reflexivity.
  - intros R runs cfg2 w2.
    set (t1 := [ HttpGet (news_request cfg1 prof); Warning news_warning e ] ++ te ++ []).
    destruct (session_grows R runs
                {| messages := messages s0;
                   cache := <[(prof, loc) := (([], events), shown_warnings t1)]> (cache s0) |})
      as [[Hc _] _].
    specialize (Hc (prof, loc) _ (lookup_insert_eq _ _ _)).
    exists (replay (shown_warnings t1)). split; [by apply fetch_hit |].
    split; [| apply replay_no_request].
    apply replay_member. unfold t1. cbn [app shown_warnings]. apply elem_of_cons. by left.
Qed.

Lemma degraded_result_is_cached_witness :
  ∃ s1 t1 events,
    fetch_news_and_events sample_settings broken_world (text "designer") (text "Seoul") fresh
    = (s1, t1, Ok ([], events))
    ∧ ∀ R runs cfg2 w2, ∃ t2,
        fetch_news_and_events cfg2 w2 (text "designer") (text "Seoul") (session R runs s1).1
        = ((session R runs s1).1, t2, Ok ([], events))
        ∧ Warning news_warning (RequestException (text "connection refused")) ∈ t2
        ∧ http_requests t2 = [].
Proof.
  apply (degraded_result_is_cached sample_settings broken_world (text "designer")
           (text "Seoul") fresh (RequestException (text "connection refused")));
    [reflexivity | discriminate | apply network_error].
Defined.

(** ** How many items come back *)

Lemma map_result_Forall2 {A B} (f : A → result B) l bs :
  map_result f l = Ok bs → Forall2 (λ a b, f a = Ok b) l bs.
Proof.
  revert bs. induction l as [|a l IH]; intros bs; simpl.
  - intros [= <-]. constructor.
  - destruct (f a) as [b | e] eqn:E; simpl; [| done].
    destruct (map_result f l) as [bs' | e]; simpl; [| done].
    intros [= <-]. constructor; auto.
Qed.

Lemma map_result_all_ok {A B} (f : A → result B) l :
  (∀ a, a ∈ l → ∃ b, f a = Ok b) → ∃ bs, map_result f l = Ok bs.
Proof.
  induction l as [|a l IH]; intros H; simpl; [by eexists |].
  destruct (H a) as [b ->]; [by apply elem_of_cons; left |].
  destruct IH as [bs ->]; [intros a' Ha'; apply H, elem_of_cons; by right |].
  by eexists.
Qed.

Lemma iterate_slice_short n v l :
  rbind (slice_to n v) iterate = Ok l → (length l ≤ n)%nat.
Proof.
  destruct v; simpl; try done; intros [= <-].
  - rewrite length_map, length_take. lia.
  - rewrite length_take. lia.
Qed.

Lemma event_items_short data items :
  event_items_of data = Ok items → (length items ≤ 3)%nat.
Proof.
  unfold event_items_of.
  destruct (dict_get data (text "events") (PyList [])) as [evs | e]; simpl; [| done].
  destruct (slice_to 3 evs) as [first3 | e] eqn:E1; simpl; [| done].
  destruct (iterate first3) as [l | e] eqn:E2; simpl; [| done].
  intros H. apply map_result_Forall2, Forall2_length in H. rewrite <- H.
  apply (iterate_slice_short 3 evs). by rewrite E1.
Qed.

(** X9. The events fetch never returns more than three items, whatever the
    provider sends.  The list is cut to its first three elements before
    any of them is read, so entries after the third cannot make the fetch
    fail either. *)
Theorem events_are_cut_to_three (cfg : settings) (w : world) (loc prof : pystr)
    (s : app_state) :
  (∃ t items, _query_events cfg w loc prof s = (s, t, Ok items)
              ∧ (length items ≤ 3)%nat)
  ∧ ∀ fields evs,
      assoc (text "events") fields = Some (PyList evs) →
      event_items_of (PyDict fields) = map_result event_item_of (take 3 evs).
Proof.
  split.
  - destruct (decide (event_api_key cfg = [])) as [K | K];
      [| destruct (decide (loc = [])) as [L | L]].
    + exists [], []. unfold _query_events. rewrite K. split; [done | simpl; lia].
    + exists [], []. unfold _query_events. rewrite L, orb_true_r. split; [done | simpl; lia].
    + rewrite query_events_run by done.
      destruct (attempt event_items_of _) as [items | e] eqn:E.
      * eexists _, items. split; [done |].
        unfold attempt in E. destruct (http w _) as [d | res]; [done |].
        destruct (raise_for_status res); simpl in E; [| done].
        destruct (json res) as [data | e]; simpl in E; [| done].
        by apply (event_items_short data).
      * eexists _, []. split; [done | simpl; lia].
  - intros fields evs H. unfold event_items_of.
    by rewrite (dict_get_present _ _ _ _ H).
Qed.

Lemma events_are_cut_to_three_witness :
  event_items_of five_events_body
  = map_result event_item_of [ sample_event; sample_event; sample_event ].
Proof.
  apply (proj2 (events_are_cut_to_three sample_settings sample_world [] [] fresh)
           [ (text "events",
              PyList [ sample_event; sample_event; sample_event; PyNone; sample_event ]) ]
           [ sample_event; sample_event; sample_event; PyNone; sample_event ]).
  reflexivity.
Defined.

(** X10. The news fetch does not cut the list: when every article of the
    answer has its fields, the fetch returns one item per article, in the
    order of the answer, however many there are, with a single request and
    no warning. *)
Theorem news_are_not_cut (cfg : settings) (w : world) (prof : pystr) (s : app_state)
    (res : response) (fields : list (pystr * pyval)) (arts : list pyval) :
  news_api_key cfg ≠ [] →
  http w (news_request cfg prof) = Answered res →
  ¬ (400 ≤ status_code res < 600)%Z →
  decoded res = Some (PyDict fields) →
  assoc (text "articles") fields = Some (PyList arts) →
  (∀ art, art ∈ arts → ∃ item, news_item_of art = Ok item) →
  ∃ items,
    _query_news cfg w prof s = (s, [ HttpGet (news_request cfg prof) ], Ok items)
    ∧ length items = length arts
    ∧ Forall2 (λ art item, news_item_of art = Ok item) arts items.
Proof.
  intros K Hhttp Hstatus Hbody Harts Hall.
  destruct (map_result_all_ok news_item_of arts Hall) as [items Hitems].
  exists items. rewrite query_news_run by done. rewrite Hhttp.
  assert (attempt news_items_of (Answered res) = Ok items) as ->.
  { unfold attempt, raise_for_status, json. rewrite Hbody.
    assert (((400 <=? status_code res) && (status_code res <? 600))%Z = false) as ->.
    { apply andb_false_iff.
      destruct (Z.leb_spec 400 (status_code res)); [right; apply Z.ltb_ge; lia | by left]. }
    cbn [rbind]. unfold news_items_of.
    rewrite (dict_get_present _ _ _ _ Harts). cbn [rbind iterate]. exact Hitems. }
  split; [done |].
  apply map_result_Forall2 in Hitems. split; [| done].
  symmetry. by eapply Forall2_length.
Qed.

Lemma news_are_not_cut_witness :
  ∃ items,
    _query_news sample_settings (world_serving 200 (Some four_articles_body))
      (text "designer") fresh
    = (fresh, [ HttpGet (news_request sample_settings (text "designer")) ], Ok items)
    ∧ length items = 4%nat
    ∧ Forall2 (λ art item, news_item_of art = Ok item)
        [ sample_article; sample_article; sample_article; sample_article ] items.
Proof.
  apply (news_are_not_cut sample_settings (world_serving 200 (Some four_articles_body))
           (text "designer") fresh
           {| status_code := 200; decoded := Some four_articles_body |}
           [ (text "articles",
              PyList [ sample_article; sample_article; sample_article; sample_article ]) ]
           [ sample_article; sample_article; sample_article; sample_article ]);
    [discriminate | reflexivity | simpl; lia | reflexivity | reflexivity |].
  intros art Hart. exists sample_news_item.
  repeat (apply elem_of_cons in Hart as [-> | Hart]; [reflexivity |]).
  by apply elem_of_nil in Hart.
Defined.

(** ** More on routing *)

Lemma forallb_rev_true {A} (f : A → bool) l :
  forallb f l = true → forallb f (rev l) = true.
Proof.
  rewrite !forallb_forall. intros H x Hx. apply H. by apply in_rev.
Qed.

Lemma rstrip_space_suffix s trail :
  forallb isspace trail = true → rstrip (s ++ trail) = rstrip s.
Proof.
  intros H. unfold rstrip. rewrite rev_app_distr.
  by rewrite lstrip_space_prefix by (by apply forallb_rev_true).
Qed.

Lemma strip_padding lead t trail :
  forallb isspace lead = true → forallb isspace trail = true →
  strip (lead ++ t ++ trail) = strip t.
Proof.
  intros Hlead Htrail. unfold strip. rewrite lstrip_space_prefix by done.
  induction t as [|c t IH]; cbn [app lstrip].
  - by rewrite (lstrip_all_space trail Htrail).
  - destruct (isspace c); [exact IH |].
    exact (rstrip_space_suffix (c :: t) trail Htrail).
Qed.

Lemma strip_first_visible lead c rest :
  forallb isspace lead = true → isspace c = false →
  ∃ rest', strip (lead ++ c :: rest) = c :: rest'.
Proof.
  intros Hlead Hc.
  destruct (strip_keeps_token lead [] c rest Hlead Hc Hc) as [rest' H].
  by exists rest'.
Qed.

(** X11. Whitespace around a text never changes how it is routed: a text
    and the same text with any blanks, tabs or line breaks before and after
    it go the same way. *)
Theorem padding_does_not_change_the_route (R : py_runtime) (lead t trail : pystr) :
  forallb isspace lead = true → forallb isspace trail = true →
  route R (lead ++ t ++ trail) = route R t.
Proof.
  intros Hlead Htrail. unfold route, is_brief.
  by rewrite (strip_padding lead t trail Hlead Htrail).
Qed.

Lemma padding_does_not_change_the_route_witness :
  route sample_runtime ([ 9; 12288 ] ++ text "/Brief me" ++ [ 32; 10 ])
  = route sample_runtime (text "/Brief me").
Proof.
  apply (padding_does_not_change_the_route sample_runtime [ 9; 12288 ]
           (text "/Brief me") [ 32; 10 ]); reflexivity.
Defined.

(** X12. The command is recognised only at the start of the text: when the
    first character after the leading whitespace is an ASCII character
    other than the slash, the text is plain chat, whatever follows, a
    later [/brief] included. *)
Theorem command_must_come_first (R : py_runtime) (lead : pystr) (c : N) (rest : pystr) :
  forallb isspace lead = true → isspace c = false → c < 128 → c ≠ 47 →
  route R (lead ++ c :: rest) = PlainChat.
Proof.
  intros Hlead Hsp Hascii Hslash.
  destruct (strip_first_visible lead c rest Hlead Hsp) as [rest' Hstrip].
  unfold route, is_brief. rewrite Hstrip. unfold lower. cbn [lower_from].
  unfold lower_ucs4.
  destruct (N.eqb_spec c 931); [lia |].
  destruct (N.ltb_spec c 128); [| lia].
  assert (text "/brief" = [ 47; 98; 114; 105; 101; 102 ]) as -> by (vm_compute; reflexivity).
  cbn [app startswith].
  assert ((47 =? ascii_lower c) = false) as ->; [| done].
  apply N.eqb_neq. unfold ascii_lower.
  destruct (N.leb_spec 65 c), (N.leb_spec c 90); simpl; lia.
Qed.

Lemma command_must_come_first_witness :
  route sample_runtime (text " please /brief me") = PlainChat.
Proof.
  apply (command_must_come_first sample_runtime (text " ") 112 (text "lease /brief me"));
    [reflexivity | reflexivity | reflexivity | discriminate].
Defined.

(** ** The base instruction *)

(** X13. The base instruction is, in this order, the identity sentence
    with the date of the run, the profession sentence, the location
    sentence and the standing guidance.  A sentence about the profession or
    the location is there exactly when that setting is not empty, and it
    quotes the setting as it was typed. *)
Theorem base_prompt_shape (cfg : settings) (w : world) :
  let identity :=
    text "You are CareerMate, a multilingual professional assistant. "
    ++ text "Today's date is " ++ today w ++ text "." in
  let about_profession :=
    match profession cfg with
    | [] => []
    | _ :: _ => text " The user's profession is '" ++ profession cfg ++ text "'."
    end in
  let about_location :=
    match location cfg with
    | [] => []
    | _ :: _ => text " The user is located in " ++ location cfg ++ text "."
    end in
  let guidance :=
    text " Curate relevant news and events, and provide clear, concise, and actionable feedback. "
    ++ text "When asked for a daily briefing, provide a bullet summary in Korean, then offer deeper dives." in
  build_system_prompt cfg w = identity ++ about_profession ++ about_location ++ guidance
  ∧ identity `prefix_of` build_system_prompt cfg w
  ∧ guidance `suffix_of` build_system_prompt cfg w
  ∧ contains (build_system_prompt cfg w) (today w)
  ∧ (profession cfg ≠ [] → contains (build_system_prompt cfg w) (profession cfg))
  ∧ (location cfg ≠ [] → contains (build_system_prompt cfg w) (location cfg))
  ∧ (profession cfg = [] → location cfg = [] →
     build_system_prompt cfg w = identity ++ guidance).
Proof.
  intros identity about_profession about_location guidance.
  assert (build_system_prompt cfg w
          = identity ++ about_profession ++ about_location ++ guidance) as E.
  { unfold build_system_prompt, about_profession, about_location.
    destruct (profession cfg), (location cfg); cbn [truthy];
      fold identity; fold guidance; rewrite ?app_nil_l, <- ?app_assoc; reflexivity. }
  split; [exact E |]. rewrite E.
  split; [by eexists |].
  split; [exists (identity ++ about_profession ++ about_location); by rewrite <- !app_assoc |].
  split.
  { apply contains_app_l. unfold identity.
    apply contains_app_r, contains_app_r, contains_app_l, contains_refl. }
  split.
  { intros H. apply contains_app_r, contains_app_l. unfold about_profession.
    destruct (profession cfg) as [|c p] eqn:P; [done |].
    apply contains_app_r, contains_app_l, contains_refl. }
  split.
  { intros H. apply contains_app_r, contains_app_r, contains_app_l. unfold about_location.
    destruct (location cfg) as [|c p] eqn:P; [done |].
    apply contains_app_r, contains_app_l, contains_refl. }
  intros P L. unfold about_profession, about_location. by rewrite P, L.
Qed.

Lemma base_prompt_shape_witness :
  contains (build_system_prompt sample_settings sample_world) (text "UI/UX Designer")
  ∧ contains (build_system_prompt sample_settings sample_world) (text "Seoul")
  ∧ contains (build_system_prompt sample_settings sample_world) (text "2025-06-01").
Proof.
  destruct (base_prompt_shape sample_settings sample_world)
    as (_ & _ & _ & Hdate & Hprof & Hloc & _).
  split; [apply Hprof; discriminate | split; [apply Hloc; discriminate | exact Hdate]].
Defined.

(** ** Shape of the transcript *)

Lemma handler_keeps_well_formed R cfg w inp s ms :
  messages s = Some ms → well_formed ms →
  ∃ ms', messages (handler R cfg w inp s).1.1 = Some ms' ∧ well_formed ms'.
Proof.
  intros Hms Hwf.
  destruct inp as [[|c t] |]; [by exists ms | | by exists ms].
  destruct (handled_input R cfg w (c :: t) s ms ltac:(done) Hms)
    as (extra & c' & tf & _ & Hsys & Hlen & _ & _ & ->).
  destruct Hwf as (base & blocks & -> & Hbase & Hblocks).
  set (asked := {| role := user; content := c :: t |}).
  set (reply := llm w model_id ((base :: concat blocks) ++ asked :: extra)).
  destruct (failure reply); cbn [fst messages]; eexists; (split; [reflexivity |]).
  - exists base, (blocks ++ [ asked :: extra ++ [] ]). split; [| split; [done |]].
    + rewrite concat_app. cbn [concat]. by rewrite !app_nil_r.
    + apply Forall_app. split; [done |]. constructor; [| done].
      exists (c :: t), extra, []. auto.
  - exists base,
      (blocks ++ [ asked :: extra ++ [{| role := assistant;
                                         content := concat (chunks reply) |}] ]).
    split; [| split; [done |]].
    + rewrite concat_app. cbn [concat]. rewrite app_nil_r.
      cbn [app]. by rewrite <- !app_assoc.
    + apply Forall_app. split; [done |]. constructor; [| done].
      exists (c :: t), extra, [{| role := assistant; content := concat (chunks reply) |}].
      repeat split; eauto.
Qed.

Lemma script_keeps_well_formed R cfg w inp s :
  match messages s with Some ms => well_formed ms | None => True end →
  match messages (script R cfg w inp s).1.1 with
  | Some ms => well_formed ms
  | None => True
  end.
Proof.
  intros Hinv.
  destruct (decide (openai_api_key cfg = [])) as [K | K].
  - by rewrite (script_without_key R cfg w inp s K).
  - destruct (messages s) as [ms |] eqn:Hms.
    + rewrite (script_prelude R cfg w inp s ms K Hms).
      destruct (handler_keeps_well_formed R cfg w inp s ms Hms Hinv) as (ms' & E & Hwf).
      destruct (handler R cfg w inp s) as [[s1 t1] r]. cbn [fst] in *. by rewrite E.
    + rewrite (script_first_run R cfg w inp s K Hms).
      destruct (handler_keeps_well_formed R cfg w inp
                  {| messages := Some [ base_turn cfg w ]; cache := cache s |}
                  [ base_turn cfg w ] eq_refl) as (ms' & E & Hwf).
      { exists (base_turn cfg w), []. split; [done | split; [done | constructor]]. }
      destruct (handler R cfg w inp _) as [[s1 t1] r]. cbn [fst] in *. by rewrite E.
Qed.

Lemma session_keeps_well_formed R runs s :
  match messages s with Some ms => well_formed ms | None => True end →
  match messages (session R runs s).1 with
  | Some ms => well_formed ms
  | None => True
  end.
Proof.
  revert s. induction runs as [|r runs IH]; intros s H0; [done |]. cbn [session].
  pose proof (script_keeps_well_formed R (at_settings r) (at_world r) (submitted r)
                s H0) as H1.
  destruct (script R (at_settings r) (at_world r) (submitted r) s) as [[s1 t1] r1].
  cbn [fst] in H1. specialize (IH s1 H1).
  destruct (session R runs s1) as [s2 t2]. done.
Qed.

Lemma no_assistant_after_split prev before a b after :
  no_assistant_after prev (before ++ a :: b :: after) →
  role b = assistant → role a ≠ assistant.
Proof.
  revert prev. induction before as [|m before IH]; intros prev; cbn [app no_assistant_after].
  - intros (_ & Hb & _) Hrole. by apply Hb.
  - intros [_ H]. by apply (IH (role m)).
Qed.

Lemma exchanges_no_assistant_after blocks prev :
  Forall exchange blocks → no_assistant_after prev (concat blocks).
Proof.
  intros H. revert prev. induction H as [|block blocks Hblock _ IH]; intros prev; [done |].
  destruct Hblock as (t & extra & answer & -> & Hsys & Hlen & Hans).
  cbn [concat app no_assistant_after role]. split; [done |].
  destruct extra as [|x [|y extra]]; [| | simpl in Hlen; lia].
  - destruct Hans as [-> | [ans ->]]; cbn [app no_assistant_after role]; [apply IH |].
    split; [done | apply IH].
  - apply Forall_cons in Hsys as [Hx _].
    destruct Hans as [-> | [ans ->]]; cbn [app no_assistant_after role]; rewrite Hx.
    + split; [done | apply IH].
    + split; [done |]. split; [done | apply IH].
Qed.

(** X14. In a session that starts with no transcript, the transcript is at
    every moment a system turn followed by exchanges, one per handled text:
    a user turn, then at most one system turn, then at most one assistant
    turn.  So an assistant turn never comes first and never follows another
    assistant turn directly. *)
Theorem transcript_is_base_then_exchanges (R : py_runtime) (runs : list interaction)
    (s : app_state) (ms : list turn) :
  messages s = None →
  messages (session R runs s).1 = Some ms →
  well_formed ms
  ∧ (∀ m, head ms = Some m → role m = system)
  ∧ ∀ before a b after,
      ms = before ++ a :: b :: after → role b = assistant → role a ≠ assistant.
Proof.
  intros Hnone Hfinal.
  assert (well_formed ms) as Hwf.
  { pose proof (session_keeps_well_formed R runs s) as Hall.
    rewrite Hnone, Hfinal in Hall. by apply Hall. }
  split; [done |]. destruct Hwf as (base & blocks & -> & Hbase & Hblocks).
  split; [by intros m [= <-] |].
  intros before a b after Hsplit Hb.
  apply (no_assistant_after_split user before a b after); [| done].
  rewrite <- Hsplit. cbn [no_assistant_after]. split; [by rewrite Hbase |].
  by apply exchanges_no_assistant_after.
Qed.

Lemma transcript_is_base_then_exchanges_witness :
  well_formed sample_transcript
  ∧ ∀ before a b after,
      sample_transcript = before ++ a :: b :: after →
      role b = assistant → role a ≠ assistant.
Proof.
  destruct (transcript_is_base_then_exchanges sample_runtime
              (load_then_brief sample_settings sample_world sample_world) fresh
              sample_transcript eq_refl ltac:(vm_compute; reflexivity))
    as (Hwf & _ & Hadj).
  split; [exact Hwf | exact Hadj].
Defined.
